(** * Sequence encoding and alignment of the DNA notebooks

    A shallow embedding of the data-preparation cells of the two notebooks:
    the table [base_pairs], [align_sequence], [to_positive_strand] and
    [process_seq_record], the latter in its two variants (with the strand
    step, and with the strand step commented out).

    Python values are modelled as follows.
    - a [str] is a [string]; a character is an [ascii], read as a code point
      below 256;
    - a sequence ([Bio.Seq]) is the list of its characters;
    - a Python [int] is a [Z]; a Python list is a [list];
    - the two collections [X] and [y] that [process_seq_record] appends to
      are one [store], threaded through a state-and-exception monad: a
      raised exception leaves the store as it was at the raise. *)

From Stdlib Require Import ZArith List String Ascii Bool Lia.
Import ListNotations.

Local Open Scope char_scope.
Local Open Scope Z_scope.

(** ** Exceptions, the store and the monad *)

Inductive exn : Type :=
| IndexError                (* list index out of range *)
| ValueError                (* int() on a string that is no integer *)
| KeyError (k : ascii).     (* base_pairs[k] on a missing key *)

(** What a [SeqRecord] carries.  The code reads [description] and [seq]
    only. *)
Record seq_record : Type := mkRecord {
  id : string;
  name : string;
  description : string;
  seq : list ascii
}.

Record store : Type := mkStore {
  X : list (list Z);
  y : list Z
}.

Definition result (A : Type) : Type := (exn + A)%type.

Definition M (A : Type) : Type := store -> result A * store.

Definition bind {A B} (m : M A) (k : A -> M B) : M B :=
  fun st =>
    match m st with
    | (inr a, st') => k a st'
    | (inl e, st') => (inl e, st')
    end.

Definition lift {A} (r : result A) : M A := fun st => (r, st).

Notation "x <- m ;; k" := (bind m (fun x => k))
  (at level 61, m at next level, right associativity).
Notation "m ;;; k" := (bind m (fun _ => k))
  (at level 61, right associativity).

(** [y.append(v)] and [X.append(v)] *)
Definition y_append (v : Z) : M unit :=
  fun st => (inr tt, mkStore (X st) (y st ++ [v])).

Definition X_append (v : list Z) : M unit :=
  fun st => (inr tt, mkStore (X st ++ [v]) (y st)).

(** ** Python built-ins the cells use *)

(** [l[i]] for a non-negative literal index *)
Definition getitem {A} (l : list A) (i : nat) : result A :=
  match nth_error l i with
  | Some a => inr a
  | None => inl IndexError
  end.

(** [s.split(sep)] for a one-character separator: never the empty list *)
Fixpoint split (sep : ascii) (s : string) : list string :=
  match s with
  | EmptyString => [EmptyString]
  | String c s' =>
      if Ascii.eqb c sep then EmptyString :: split sep s'
      else match split sep s' with
           | f :: fs => String c f :: fs
           | [] => [String c EmptyString]
           end
  end.

(** White space as [int()] strips it, for code points below 256: tab to
    carriage return, the blank, and the two above 127 that are spaces.
    The separators 28 to 31 are not stripped. *)
Definition is_space (c : ascii) : bool :=
  let n := nat_of_ascii c in
  ((9 <=? n) && (n <=? 13) || (n =? 32) || (n =? 133) || (n =? 160))%nat.

Fixpoint lstrip (l : list ascii) : list ascii :=
  match l with
  | c :: t => if is_space c then lstrip t else l
  | [] => []
  end.

Definition strip (l : list ascii) : list ascii :=
  rev (lstrip (rev (lstrip l))).

Definition digit_val (c : ascii) : option Z :=
  let n := nat_of_ascii c in
  if ((48 <=? n) && (n <=? 57))%nat then Some (Z.of_nat n - 48) else None.

(** Decimal digits, a single underscore allowed between two digits.
    [prev] tells whether the last character read was a digit. *)
Fixpoint digits (acc : Z) (prev : bool) (l : list ascii) : option Z :=
  match l with
  | [] => if prev then Some acc else None
  | c :: t =>
      if Ascii.eqb c "_" then
        if prev then
          match t with
          | [] => None
          | _ => digits acc false t
          end
        else None
      else
        match digit_val c with
        | Some d => digits (10 * acc + d) true t
        | None => None
        end
  end.

(** [int(s)] in base ten: surrounding white space, an optional sign, then
    digits. *)
Definition py_int (s : string) : result Z :=
  let body := strip (list_ascii_of_string s) in
  let parsed :=
    match body with
    | "-" :: t => option_map Z.opp (digits 0 false t)
    | "+" :: t => digits 0 false t
    | _ => digits 0 false body
    end in
  match parsed with
  | Some n => inr n
  | None => inl ValueError
  end.

(** [l[:k]], with Python's reading of a negative bound *)
Definition slice_to {A} (k : Z) (l : list A) : list A :=
  if k <? 0 then firstn (Z.to_nat (Z.of_nat (List.length l) + k)) l
  else firstn (Z.to_nat k) l.

(** [[f(n) for n in l]] where [f] may raise: the first exception wins *)
Fixpoint comprehension {A B} (f : A -> result B) (l : list A)
  : result (list B) :=
  match l with
  | [] => inr []
  | a :: t =>
      match f a with
      | inl e => inl e
      | inr b =>
          match comprehension f t with
          | inl e => inl e
          | inr bs => inr (b :: bs)
          end
      end
  end.

(** ** The one-hot table *)

Definition base_pairs : list (ascii * list Z) :=
  [ ("A", [1; 0; 0; 0]);
    ("C", [0; 1; 0; 0]);
    ("G", [0; 0; 1; 0]);
    ("T", [0; 0; 0; 1]);
    ("a", [1; 0; 0; 0]);
    ("c", [0; 1; 0; 0]);
    ("g", [0; 0; 1; 0]);
    ("t", [0; 0; 0; 1]);
    ("n", [0; 0; 0; 0]);
    ("N", [0; 0; 0; 0]) ].

Fixpoint dict_get {V} (k : ascii) (d : list (ascii * V)) : option V :=
  match d with
  | [] => None
  | (k', v) :: d' => if Ascii.eqb k k' then Some v else dict_get k d'
  end.

(** [base_pairs[n]] *)
Definition base_pairs_at (n : ascii) : result (list Z) :=
  match dict_get n base_pairs with
  | Some v => inr v
  | None => inl (KeyError n)
  end.

(** The symbols of the data model. *)
Definition alphabet : list ascii :=
  ["A"; "C"; "G"; "T"; "a"; "c"; "g"; "t"; "N"; "n"].

Definition in_alphabet (c : ascii) : bool :=
  existsb (Ascii.eqb c) alphabet.

(** Modelled from the spec: [Seq.complement] belongs to the sequence-file
    library and is not part of the notebooks.  The spec gives
    complement(A)=T, complement(C)=G, complement(G)=C, complement(T)=A;
    the library keeps the case of a letter and leaves N as it is.  Its
    value on a character outside the alphabet is not described: such a
    character is left unchanged here, and the statements below that reach
    complemented characters outside the alphabet speak of the complemented
    sequence itself. *)
Definition complement_base (c : ascii) : ascii :=
  if Ascii.eqb c "A" then "T"
  else if Ascii.eqb c "C" then "G"
  else if Ascii.eqb c "G" then "C"
  else if Ascii.eqb c "T" then "A"
  else if Ascii.eqb c "a" then "t"
  else if Ascii.eqb c "c" then "g"
  else if Ascii.eqb c "g" then "c"
  else if Ascii.eqb c "t" then "a"
  else c.

Definition complement (sequence : list ascii) : list ascii :=
  map complement_base sequence.

(** ** The cells *)

Definition align_sequence (length : Z) (sequence : list Z) : list Z :=
  if Z.of_nat (List.length sequence) >? length then
    slice_to length sequence
  else
    sequence ++ repeat 0 (Z.to_nat (length - Z.of_nat (List.length sequence))).

Definition to_positive_strand (strand : string) (sequence : list ascii)
  : result (list (list Z)) :=
  if String.eqb strand "-" then
    comprehension base_pairs_at (complement sequence)
  else
    comprehension base_pairs_at sequence.

(** [[i for x in unflattened_seq for i in x]] *)
Definition flatten (unflattened_seq : list (list Z)) : list Z :=
  List.concat unflattened_seq.

(** The notebook with the strand step.  [header[3]] is evaluated when the
    call to [to_positive_strand] is made, after the label went into [y];
    [np.array] keeps the entries of the list it is given. *)
Module Strand.

Definition process_seq_record (seq_record : seq_record) : M unit :=
  let header := split "|" (description seq_record) in
  field1 <- lift (getitem header 1) ;;
  expressed <- lift (py_int field1) ;;
  y_append expressed ;;;
  field3 <- lift (getitem header 3) ;;
  unflattened_seq <- lift (to_positive_strand field3 (seq seq_record)) ;;
  let flattened_seq := flatten unflattened_seq in
  let aligned_seq := align_sequence 4000 flattened_seq in
  X_append aligned_seq.

End Strand.

(** The notebook whose strand step is commented out. *)
Module Basic.

Definition process_seq_record (seq_record : seq_record) : M unit :=
  let header := split "|" (description seq_record) in
  field1 <- lift (getitem header 1) ;;
  expressed <- lift (py_int field1) ;;
  y_append expressed ;;;
  unflattened_seq <- lift (comprehension base_pairs_at (seq seq_record)) ;;
  let flattened_seq := flatten unflattened_seq in
  let aligned_seq := align_sequence 4000 flattened_seq in
  X_append aligned_seq.

End Basic.

(** ** Vocabulary of the statements *)

(** The characters of a literal. *)
Definition chars (s : string) : list ascii := list_ascii_of_string s.

(** [header[i]] of a description, when there is one. *)
Definition field (d : string) (i : nat) : option string :=
  nth_error (split "|" d) i.

(** The table value of a symbol (empty for a character without one). *)
Definition one_hot (c : ascii) : list Z :=
  match dict_get c base_pairs with
  | Some v => v
  | None => []
  end.

Definition over_alphabet (s : list ascii) : Prop :=
  Forall (fun c => in_alphabet c = true) s.

Definition has_unknown (s : list ascii) : Prop :=
  Exists (fun c => in_alphabet c = false) s.

Definition st0 : store := mkStore [] [].

(** The sequence whose characters [to_positive_strand] looks up. *)
Definition looked_up (strand : string) (s : list ascii) : list ascii :=
  if String.eqb strand "-" then complement s else s.

(** The aligned vector as the data model describes it: [v] has 4000
    entries; it is the first 4000 entries of [flat] when [flat] is longer,
    and [flat] followed by zeros otherwise. *)
Definition aligned_to_4000 (flat v : list Z) : Prop :=
  List.length v = 4000%nat /\
  ((4000 < List.length flat)%nat -> v = firstn 4000 flat) /\
  ((List.length flat <= 4000)%nat ->
   v = flat ++ repeat 0 (4000 - List.length flat)).

(** ** Reading files and splitting them into training and test data *)

(** [for i in range(len(l)): body(l[i])]: the first exception ends the
    loop. *)
Fixpoint for_each {A} (body : A -> M unit) (l : list A) : M unit :=
  match l with
  | [] => lift (inr tt)
  | a :: rest => body a ;;; for_each body rest
  end.

(** [s.endswith(suffix)] *)
Definition endswith (s suffix : string) : bool :=
  (String.length suffix <=? String.length s)%nat &&
  String.eqb
    (substring (String.length s - String.length suffix)
               (String.length suffix) s)
    suffix.

(** The four lists of the loading cell: [X_train], [y_train] and
    [X_test], [y_test]. *)
Record collections : Type := mkCollections {
  train : store;
  test : store
}.

(** The loading cells of the notebook with the strand step.  The content
    of the files is the one parameter: [SeqIO_parse path] is the list of
    records the sequence-file library reads at [path].  The directory
    listing is the argument of [load]. *)
Module StrandLoad.
Section Files.

Variable SeqIO_parse : string -> list seq_record.

Definition read_file (file : string) : M unit :=
  let seq_record_list :=
    SeqIO_parse (String.append "data/input/3.24_species_only/" file) in
  for_each Strand.process_seq_record seq_record_list.

Definition training_size : Z := 500.
Definition test_size : Z := 20.

(** The [for file in os.listdir(...)] loop; the result is [file_count]
    when the loop ends, or the exception that ended it. *)
Fixpoint listing_loop (listing : list string) (file_count : Z)
  (c : collections) : result Z * collections :=
  match listing with
  | [] => (inr file_count, c)
  | file :: rest =>
      if file_count <? training_size then
        match read_file file (train c) with
        | (inr _, st) =>
            listing_loop rest (file_count + 1) (mkCollections st (test c))
        | (inl e, st) => (inl e, mkCollections st (test c))
        end
      else if file_count <? training_size + test_size then
        match read_file file (test c) with
        | (inr _, st) =>
            listing_loop rest (file_count + 1) (mkCollections (train c) st)
        | (inl e, st) => (inl e, mkCollections (train c) st)
        end
      else listing_loop rest (file_count + 1) c
  end.

Definition load (listing : list string) : result Z * collections :=
  listing_loop listing 0 (mkCollections st0 st0).

End Files.
End StrandLoad.

(** The loading cells of the notebook without the strand step: only the
    names ending in ".fa" are read, and only they are counted. *)
Module BasicLoad.
Section Files.

Variable SeqIO_parse : string -> list seq_record.

Definition read_file (file : string) : M unit :=
  let seq_record_list :=
    SeqIO_parse (String.append "../data/input/3.24_species_only/" file) in
  for_each Basic.process_seq_record seq_record_list.

Definition training_size : Z := 500.
Definition test_size : Z := 50.

Fixpoint listing_loop (listing : list string) (file_count : Z)
  (c : collections) : result Z * collections :=
  match listing with
  | [] => (inr file_count, c)
  | file :: rest =>
      if endswith file ".fa" then
        if file_count <? training_size then
          match read_file file (train c) with
          | (inr _, st) =>
              listing_loop rest (file_count + 1) (mkCollections st (test c))
          | (inl e, st) => (inl e, mkCollections st (test c))
          end
        else if file_count <? training_size + test_size then
          match read_file file (test c) with
          | (inr _, st) =>
              listing_loop rest (file_count + 1) (mkCollections (train c) st)
          | (inl e, st) => (inl e, mkCollections (train c) st)
          end
        else listing_loop rest (file_count + 1) c
      else listing_loop rest file_count c
  end.

Definition load (listing : list string) : result Z * collections :=
  listing_loop listing 0 (mkCollections st0 st0).

End Files.
End BasicLoad.

(** Vocabulary for the statements on loading. *)

(** A vector of the feature matrix: 4000 entries, each 0 or 1. *)
Definition feature_row (v : list Z) : Prop :=
  List.length v = 4000%nat /\ Forall (fun z => z = 0 \/ z = 1) v.

(** Two batches of files read one after the other, the first into the
    training lists and the second into the test lists, starting from [c];
    [count] is the value of [file_count] at the end. *)
Definition two_batches (read_file : string -> M unit)
  (first second : list string) (count : Z) (c : collections)
  : result Z * collections :=
  match for_each read_file first (train c) with
  | (inl e, tr) => (inl e, mkCollections tr (test c))
  | (inr _, tr) =>
      match for_each read_file second (test c) with
      | (inl e, te) => (inl e, mkCollections tr te)
      | (inr _, te) => (inr count, mkCollections tr te)
      end
  end.

(** [label] is the integer that field[1] of the description of [r]
    reads as. *)
Definition labelled (r : seq_record) (label : Z) : Prop :=
  exists f1, field (description r) 1 = Some f1 /\ py_int f1 = inr label.

(** [st] holds exactly the rows of [records]: one vector of 4000 entries
    0 or 1 and one label for each record, the labels in the order of the
    records. *)
Definition holds_rows (st : store) (records : list seq_record) : Prop :=
  Forall feature_row (X st) /\
  List.length (X st) = List.length records /\
  Forall2 labelled records (y st).

(** The content of a directory for the examples: every file holds two
    records, except "bad.fa", whose second record has an unknown symbol. *)
Definition sample_parse (path : string) : list seq_record :=
  if String.eqb path "data/input/3.24_species_only/bad.fa" then
    [ mkRecord "s1" "s1" "s1|1|chr1|+" (chars "ACGT");
      mkRecord "s2" "s2" "s2|0|chr1|-" (chars "ACxT");
      mkRecord "s3" "s3" "s3|1|chr1|+" (chars "GGCC") ]
  else
    [ mkRecord "s1" "s1" "s1|1|chr1|+" (chars "ACGT");
      mkRecord "s2" "s2" "s2|0|chr1|-" (chars "NNTT") ].

(** The same directory in which "late.fa" is empty. *)
Definition sample_parse_late (path : string) : list seq_record :=
  if String.eqb path "data/input/3.24_species_only/late.fa"
     || String.eqb path "../data/input/3.24_species_only/late.fa"
  then []
  else sample_parse path.

(** A listing of [n] times "a.fa" followed by "late.fa". *)
Definition sample_listing (n : nat) : list string :=
  repeat "a.fa"%string n ++ ["late.fa"%string].

(** The upper-case form of a letter. *)
Definition upper (c : ascii) : ascii :=
  let n := nat_of_ascii c in
  if ((97 <=? n) && (n <=? 122))%nat then ascii_of_nat (n - 32) else c.

(** ** The embedding on sample records *)

Example split_description :
  split "|" "id|1|extra|+" = ["id"; "1"; "extra"; "+"]%string /\
  split "|" "a||b" = ["a"; EmptyString; "b"]%string /\
  split "|" EmptyString = [EmptyString].
Proof. repeat split. Qed.

Example py_int_samples :
  py_int "1" = inr 1 /\ py_int "-7" = inr (-7) /\ py_int " 12 " = inr 12 /\
  py_int "+007" = inr 7 /\ py_int "1_000" = inr 1000 /\
  py_int EmptyString = inl ValueError /\ py_int "1.0" = inl ValueError /\
  py_int "1__0" = inl ValueError /\ py_int "- 1" = inl ValueError /\
  py_int (String (ascii_of_nat 28) "1") = inl ValueError /\
  py_int (String (ascii_of_nat 160) "1") = inr 1.
Proof. repeat split. Qed.

(** Description "id|1|extra|+" with symbols ACGTN: label 1 and the five
    codes followed by 3980 zeros. *)
Example end_to_end_plus :
  Strand.process_seq_record
    (mkRecord "id" "id" "id|1|extra|+" (chars "ACGTN")) st0 =
  (inr tt,
   mkStore [[1; 0; 0; 0; 0; 1; 0; 0; 0; 0; 1; 0; 0; 0; 0; 1; 0; 0; 0; 0]
              ++ repeat 0 3980] [1]).
Proof. vm_compute. reflexivity. Qed.

(** Descriptions that do not parse: no second field, a second field that
    is no integer, and (with the strand step) no fourth field, which is
    found out only after the label went into [y]. *)
Example malformed_descriptions :
  Strand.process_seq_record (mkRecord "id" "id" "id" (chars "ACGT")) st0 =
    (inl IndexError, st0) /\
  Strand.process_seq_record (mkRecord "id" "id" "id|x|e|+" (chars "ACGT")) st0 =
    (inl ValueError, st0) /\
  Strand.process_seq_record (mkRecord "id" "id" "id|1|e" (chars "ACGT")) st0 =
    (inl IndexError, mkStore [] [1]) /\
  fst (Basic.process_seq_record (mkRecord "id" "id" "id|1|e" (chars "ACGT")) st0)
    = inr tt.
Proof. repeat split. Qed.

(** ** Lemmas on the table *)

Lemma in_alphabet_In c : in_alphabet c = true -> In c alphabet.
Proof.
  unfold in_alphabet. intros H.
  apply existsb_exists in H. destruct H as [k [Hk E]].
  apply Ascii.eqb_eq in E. now subst.
Qed.

Lemma base_pairs_at_known c :
  in_alphabet c = true ->
  base_pairs_at c = inr (one_hot c) /\ List.length (one_hot c) = 4%nat.
Proof.
  intros H. apply in_alphabet_In in H. unfold alphabet in H. simpl in H.
  repeat (destruct H as [<- | H]; [split; reflexivity|]).
  contradiction.
Qed.

Lemma base_pairs_at_unknown c :
  in_alphabet c = false -> base_pairs_at c = inl (KeyError c).
Proof.
  unfold in_alphabet, alphabet. simpl. intros H.
  repeat (apply orb_false_iff in H; destruct H as [? H]).
  unfold base_pairs_at, base_pairs. simpl.
  repeat match goal with E : Ascii.eqb c _ = false |- _ => rewrite E; clear E end.
  reflexivity.
Qed.

Lemma complement_base_known c :
  in_alphabet c = true -> in_alphabet (complement_base c) = true.
Proof.
  intros H. apply in_alphabet_In in H. unfold alphabet in H. simpl in H.
  repeat (destruct H as [<- | H]; [reflexivity|]).
  contradiction.
Qed.

Lemma complement_over_alphabet s :
  over_alphabet s -> over_alphabet (complement s).
Proof.
  unfold over_alphabet, complement. intros H.
  apply Forall_map. eapply Forall_impl; [|exact H].
  intros c Hc. now apply complement_base_known.
Qed.

(** ** Lemmas on the comprehension *)

Lemma comprehension_known s :
  over_alphabet s -> comprehension base_pairs_at s = inr (map one_hot s).
Proof.
  induction 1 as [|c s Hc Hs IH]; simpl; [reflexivity|].
  destruct (base_pairs_at_known c Hc) as [-> _]. now rewrite IH.
Qed.

Lemma comprehension_unknown s :
  has_unknown s ->
  exists k, In k s /\ in_alphabet k = false /\
            comprehension base_pairs_at s = inl (KeyError k).
Proof.
  induction s as [|c s IH]; intros H.
  - inversion H.
  - simpl. destruct (in_alphabet c) eqn:Ec.
    + destruct (base_pairs_at_known c Ec) as [-> _].
      assert (Hs : has_unknown s).
      { inversion H; subst; [congruence | assumption]. }
      destruct (IH Hs) as [k [Hin [Hk ->]]].
      exists k. auto.
    + exists c. rewrite (base_pairs_at_unknown c Ec). auto.
Qed.


Lemma one_hot_lengths s :
  over_alphabet s -> Forall (fun v => List.length v = 4%nat) (map one_hot s).
Proof.
  intros H. apply Forall_map. eapply Forall_impl; [|exact H].
  intros c Hc. now destruct (base_pairs_at_known c Hc).
Qed.

Lemma flatten_length l :
  Forall (fun v : list Z => List.length v = 4%nat) l ->
  List.length (flatten l) = (4 * List.length l)%nat.
Proof.
  unfold flatten. induction 1 as [|v l Hv Hl IH]; simpl; [reflexivity|].
  rewrite length_app, Hv, IH. lia.
Qed.

Lemma firstn_flatten k l :
  Forall (fun v : list Z => List.length v = 4%nat) l ->
  firstn (4 * k) (flatten l) = flatten (firstn k l).
Proof.
  unfold flatten. intros H. revert k.
  induction H as [|v l Hv Hl IH]; intros k.
  - now rewrite !firstn_nil.
  - destruct k as [|k]; [reflexivity|].
    replace (4 * S k)%nat with (List.length v + 4 * k)%nat by lia.
    change (List.concat (v :: l)) with (v ++ List.concat l).
    rewrite firstn_app_2, IH. reflexivity.
Qed.

Lemma Forall_firstn {A} (P : A -> Prop) k l :
  Forall P l -> Forall P (firstn k l).
Proof.
  intros H. revert k. induction H as [|a l Ha Hl IH]; intros [|k]; simpl;
    auto.
Qed.

(** ** Lemmas on [align_sequence] *)

Lemma align_sequence_long n l :
  0 <= n -> n < Z.of_nat (List.length l) ->
  align_sequence n l = firstn (Z.to_nat n) l.
Proof.
  intros Hn Hl. unfold align_sequence, slice_to.
  destruct (Z.gtb_spec (Z.of_nat (List.length l)) n); [|lia].
  destruct (Z.ltb_spec n 0); [lia|reflexivity].
Qed.

Lemma align_sequence_short n l :
  Z.of_nat (List.length l) <= n ->
  align_sequence n l = l ++ repeat 0 (Z.to_nat n - List.length l).
Proof.
  intros Hl. unfold align_sequence.
  destruct (Z.gtb_spec (Z.of_nat (List.length l)) n); [lia|].
  do 2 f_equal. lia.
Qed.

Lemma align_sequence_length n l :
  0 <= n -> List.length (align_sequence n l) = Z.to_nat n.
Proof.
  intros Hn. destruct (Z_lt_le_dec n (Z.of_nat (List.length l))).
  - rewrite align_sequence_long by lia. rewrite length_firstn. lia.
  - rewrite align_sequence_short by lia.
    rewrite length_app, repeat_length. lia.
Qed.

(** ** What one call does to the store *)

Lemma to_positive_strand_looked_up strand s :
  to_positive_strand strand s =
  comprehension base_pairs_at (looked_up strand s).
Proof.
  unfold to_positive_strand, looked_up. now destruct (String.eqb strand "-").
Qed.

Lemma looked_up_over_alphabet strand s :
  over_alphabet s -> over_alphabet (looked_up strand s).
Proof.
  unfold looked_up. destruct (String.eqb strand "-"); [|trivial].
  apply complement_over_alphabet.
Qed.

Lemma to_positive_strand_known strand s :
  over_alphabet s ->
  to_positive_strand strand s = inr (map one_hot (looked_up strand s)).
Proof.
  intros H. rewrite to_positive_strand_looked_up.
  now apply comprehension_known, looked_up_over_alphabet.
Qed.

Lemma strand_run r st f1 label strand :
  field (description r) 1 = Some f1 ->
  py_int f1 = inr label ->
  field (description r) 3 = Some strand ->
  Strand.process_seq_record r st =
  match to_positive_strand strand (seq r) with
  | inr u =>
      (inr tt,
       mkStore (X st ++ [align_sequence 4000 (flatten u)]) (y st ++ [label]))
  | inl e => (inl e, mkStore (X st) (y st ++ [label]))
  end.
Proof.
  unfold field, Strand.process_seq_record, bind, lift, getitem.
  intros -> -> ->. simpl.
  now destruct (to_positive_strand strand (seq r)).
Qed.

Lemma basic_run r st f1 label :
  field (description r) 1 = Some f1 ->
  py_int f1 = inr label ->
  Basic.process_seq_record r st =
  match comprehension base_pairs_at (seq r) with
  | inr u =>
      (inr tt,
       mkStore (X st ++ [align_sequence 4000 (flatten u)]) (y st ++ [label]))
  | inl e => (inl e, mkStore (X st) (y st ++ [label]))
  end.
Proof.
  unfold field, Basic.process_seq_record, bind, lift, getitem.
  intros -> ->. simpl.
  now destruct (comprehension base_pairs_at (seq r)).
Qed.

Lemma align_sequence_4000 flat :
  aligned_to_4000 flat (align_sequence 4000 flat).
Proof.
  unfold aligned_to_4000. repeat split.
  - now rewrite align_sequence_length.
  - intros H. now rewrite align_sequence_long by lia.
  - intros H. now rewrite align_sequence_short by lia.
Qed.

(** * Properties of the specification *)

(** C4: the table [base_pairs] sends A and a to (1,0,0,0), C and c to
    (0,1,0,0), G and g to (0,0,1,0), T and t to (0,0,0,1), N and n to
    (0,0,0,0); these ten symbols are its only keys. *)
Theorem C4_one_hot_table :
  base_pairs_at "A" = inr [1; 0; 0; 0] /\
  base_pairs_at "a" = inr [1; 0; 0; 0] /\
  base_pairs_at "C" = inr [0; 1; 0; 0] /\
  base_pairs_at "c" = inr [0; 1; 0; 0] /\
  base_pairs_at "G" = inr [0; 0; 1; 0] /\
  base_pairs_at "g" = inr [0; 0; 1; 0] /\
  base_pairs_at "T" = inr [0; 0; 0; 1] /\
  base_pairs_at "t" = inr [0; 0; 0; 1] /\
  base_pairs_at "N" = inr [0; 0; 0; 0] /\
  base_pairs_at "n" = inr [0; 0; 0; 0] /\
  (forall c, in_alphabet c = false -> base_pairs_at c = inl (KeyError c)).
Proof.
  repeat (split; [reflexivity|]). exact base_pairs_at_unknown.
Qed.

(** C1: for a record whose description parses and whose symbols are all
    in the alphabet, both variants of [process_seq_record] succeed and
    append [align_sequence 4000] of the flattened one-hot vector; that
    vector has exactly 4000 entries, is the first 4000 entries of the
    flattened vector when that is longer than 4000, and is the flattened
    vector padded with zeros on the right otherwise. *)
Theorem C1_aligned_length_4000 :
  forall r st f1 label strand,
    field (description r) 1 = Some f1 ->
    py_int f1 = inr label ->
    field (description r) 3 = Some strand ->
    over_alphabet (seq r) ->
    (exists u,
        to_positive_strand strand (seq r) = inr u /\
        Strand.process_seq_record r st =
          (inr tt,
           mkStore (X st ++ [align_sequence 4000 (flatten u)])
                   (y st ++ [label])) /\
        aligned_to_4000 (flatten u) (align_sequence 4000 (flatten u)))
    /\
    (exists u,
        comprehension base_pairs_at (seq r) = inr u /\
        Basic.process_seq_record r st =
          (inr tt,
           mkStore (X st ++ [align_sequence 4000 (flatten u)])
                   (y st ++ [label])) /\
        aligned_to_4000 (flatten u) (align_sequence 4000 (flatten u))).
Proof.
  intros r st f1 label strand H1 Hl H3 Hs. split.
  - exists (map one_hot (looked_up strand (seq r))).
    rewrite (strand_run r st f1 label strand H1 Hl H3).
    rewrite (to_positive_strand_known strand _ Hs).
    auto using align_sequence_4000.
  - exists (map one_hot (seq r)).
    rewrite (basic_run r st f1 label H1 Hl).
    rewrite (comprehension_known _ Hs).
    auto using align_sequence_4000.
Qed.

Lemma C1_witness :
  let r := mkRecord "r1" "r1" "id|1|extra|+" (chars "ACGTN") in
  exists v,
    Strand.process_seq_record r st0 = (inr tt, mkStore [v] [1]) /\
    List.length v = 4000%nat.
Proof.
  intros r.
  assert (Hs : over_alphabet (seq r)) by (repeat constructor).
  destruct (C1_aligned_length_4000 r st0 "1"%string 1 "+"%string
              eq_refl eq_refl eq_refl Hs) as [[u [_ [Hrun [Hlen _]]]] _].
  exists (align_sequence 4000 (flatten u)). split; [exact Hrun | exact Hlen].
Defined.

(** C10: [to_positive_strand] applies the strand step for the exact string
    "-" only.  For every other strand value the characters are looked up
    as given, and over the alphabet the call returns their one-hot codes
    in order, raising nothing. *)
Theorem C10_other_strand_values_as_given :
  forall strand s,
    strand <> "-"%string ->
    to_positive_strand strand s = comprehension base_pairs_at s /\
    (over_alphabet s -> to_positive_strand strand s = inr (map one_hot s)).
Proof.
  intros strand s Hne. unfold to_positive_strand.
  destruct (String.eqb_spec strand "-") as [E|_]; [contradiction|].
  split; [reflexivity|]. apply comprehension_known.
Qed.

Lemma C10_witness :
  (EmptyString <> "-"%string) /\
  to_positive_strand EmptyString (chars "AACG") =
  inr [[1; 0; 0; 0]; [1; 0; 0; 0]; [0; 1; 0; 0]; [0; 0; 1; 0]].
Proof.
  assert (Hne : EmptyString <> "-"%string) by discriminate.
  assert (Hs : over_alphabet (chars "AACG")) by (repeat constructor).
  split; [exact Hne|].
  destruct (C10_other_strand_values_as_given EmptyString (chars "AACG") Hne)
    as [_ H].
  rewrite (H Hs). reflexivity.
Defined.

(** C2: with strand "-" the code looks up the complement of the sequence
    in the order of the input; nothing reverses it.  For AACG the codes
    are those of T,T,G,C, whereas the reverse complement would give those
    of C,G,T,T. *)
Theorem C2_complement_not_reversed :
  (forall s,
      to_positive_strand "-" s =
      comprehension base_pairs_at (map complement_base s)) /\
  to_positive_strand "-" (chars "AACG") =
    inr [[0; 0; 0; 1]; [0; 0; 0; 1]; [0; 0; 1; 0]; [0; 1; 0; 0]] /\
  to_positive_strand "-" (chars "AACG") <>
    inr (map one_hot (rev (complement (chars "AACG")))) /\
  map one_hot (rev (complement (chars "AACG"))) =
    [[0; 1; 0; 0]; [0; 0; 1; 0]; [0; 0; 0; 1]; [0; 0; 0; 1]] /\
  (exists v,
      Strand.process_seq_record
        (mkRecord "r1" "r1" "id|0|extra|-" (chars "AACG")) st0 =
        (inr tt, mkStore [v] [0]) /\
      firstn 16 v = [0; 0; 0; 1; 0; 0; 0; 1; 0; 0; 1; 0; 0; 1; 0; 0]).
Proof.
  split; [reflexivity|].
  split; [reflexivity|].
  split; [vm_compute; discriminate|].
  split; [reflexivity|].
  eexists. split; vm_compute; reflexivity.
Qed.

(** ** Truncation *)

Lemma align_prefix s :
  over_alphabet s -> (1000 <= List.length s)%nat ->
  align_sequence 4000 (flatten (map one_hot s)) =
  align_sequence 4000 (flatten (map one_hot (firstn 1000 s))).
Proof.
  intros Hs Hlen.
  destruct (Nat.eq_dec (List.length s) 1000) as [E|NE].
  - rewrite firstn_all2 by lia. reflexivity.
  - pose proof (one_hot_lengths s Hs) as H4.
    assert (H4' : Forall (fun v : list Z => List.length v = 4%nat)
                    (firstn 1000 (map one_hot s))).
    { now apply Forall_firstn. }
    rewrite <- firstn_map.
    rewrite align_sequence_long;
      [| lia | rewrite (flatten_length _ H4), length_map; lia].
    rewrite align_sequence_short;
      [| rewrite (flatten_length _ H4'), length_firstn, length_map; lia].
    rewrite (flatten_length _ H4'), length_firstn, length_map.
    replace (Z.to_nat 4000) with (4 * 1000)%nat by lia.
    rewrite (firstn_flatten 1000 _ H4).
    replace (4 * 1000 - 4 * Nat.min 1000 (List.length s))%nat with 0%nat by lia.
    simpl. now rewrite app_nil_r.
Qed.

Lemma looked_up_firstn strand k s :
  looked_up strand (firstn k s) = firstn k (looked_up strand s).
Proof.
  unfold looked_up, complement.
  destruct (String.eqb strand "-"); [|reflexivity].
  symmetry. apply firstn_map.
Qed.

Lemma looked_up_length strand s :
  List.length (looked_up strand s) = List.length s.
Proof.
  unfold looked_up, complement.
  destruct (String.eqb strand "-"); [apply length_map | reflexivity].
Qed.

(** C5: for a sequence of at least 1000 alphabet symbols and any strand
    value, the vector aligned from the whole sequence is the vector
    aligned from its first 1000 symbols, and a record carrying the whole
    sequence is processed exactly as the record carrying only its first
    1000 symbols, in both variants. *)
Theorem C5_truncation_keeps_prefix :
  forall s,
    over_alphabet s -> (1000 <= List.length s)%nat ->
    (forall strand,
        exists u u',
          to_positive_strand strand s = inr u /\
          to_positive_strand strand (firstn 1000 s) = inr u' /\
          align_sequence 4000 (flatten u) = align_sequence 4000 (flatten u'))
    /\
    (forall r r' st,
        seq r = s -> seq r' = firstn 1000 s ->
        description r' = description r ->
        Strand.process_seq_record r st = Strand.process_seq_record r' st /\
        Basic.process_seq_record r st = Basic.process_seq_record r' st).
Proof.
  intros s Hs Hlen.
  assert (Hs' : over_alphabet (firstn 1000 s)) by now apply Forall_firstn.
  assert (Hstrand : forall strand,
             align_sequence 4000
               (flatten (map one_hot (looked_up strand s))) =
             align_sequence 4000
               (flatten (map one_hot (looked_up strand (firstn 1000 s))))).
  { intros strand. rewrite looked_up_firstn. apply align_prefix.
    - now apply looked_up_over_alphabet.
    - now rewrite looked_up_length. }
  split.
  - intros strand.
    exists (map one_hot (looked_up strand s)),
           (map one_hot (looked_up strand (firstn 1000 s))).
    rewrite !to_positive_strand_known by assumption. auto.
  - intros r r' st Er Er' Ed. split.
    + unfold Strand.process_seq_record, bind, lift. rewrite Ed, Er, Er'.
      destruct (getitem (split "|" (description r)) 1) as [e|f1];
        [reflexivity|].
      destruct (py_int f1) as [e|label]; [reflexivity|]. simpl.
      destruct (getitem (split "|" (description r)) 3) as [e|strand];
        [reflexivity|].
      rewrite !to_positive_strand_known by assumption.
      now rewrite Hstrand.
    + unfold Basic.process_seq_record, bind, lift. rewrite Ed, Er, Er'.
      destruct (getitem (split "|" (description r)) 1) as [e|f1];
        [reflexivity|].
      destruct (py_int f1) as [e|label]; [reflexivity|]. simpl.
      rewrite !comprehension_known by assumption.
      now rewrite (align_prefix s Hs Hlen).
Qed.

Lemma C5_witness :
  let s := repeat "A"%char 1000 ++ chars "CGTN" in
  let r := mkRecord "r1" "r1" "id|1|extra|-" s in
  let r' := mkRecord "r1" "r1" "id|1|extra|-" (firstn 1000 s) in
  (1000 <= List.length s)%nat /\
  Strand.process_seq_record r st0 = Strand.process_seq_record r' st0.
Proof.
  intros s r r'.
  assert (Hlen : (1000 <= List.length s)%nat).
  { unfold s. rewrite length_app, repeat_length. simpl. lia. }
  assert (Hs : over_alphabet s).
  { unfold s. apply Forall_app. split.
    - apply Forall_forall. intros c Hc. apply repeat_spec in Hc. now subst.
    - repeat constructor. }
  split; [exact Hlen|].
  destruct (C5_truncation_keeps_prefix s Hs Hlen) as [_ H].
  destruct (H r r' st0 eq_refl eq_refl eq_refl) as [Hrun _]. exact Hrun.
Defined.

(** ** Padding *)

Lemma align_twelve l :
  List.length l = 12%nat ->
  align_sequence 4000 l = l ++ repeat 0 3988.
Proof.
  intros H. rewrite align_sequence_short by lia.
  do 2 f_equal. lia.
Qed.

Lemma three_codes a b c :
  over_alphabet [a; b; c] ->
  flatten (map one_hot [a; b; c]) = one_hot a ++ one_hot b ++ one_hot c /\
  List.length (flatten (map one_hot [a; b; c])) = 12%nat.
Proof.
  intros H. split.
  - unfold flatten. simpl. now rewrite app_nil_r.
  - now rewrite (flatten_length _ (one_hot_lengths _ H)).
Qed.

Lemma padded_parts l :
  List.length l = 12%nat ->
  firstn 12 (l ++ repeat 0 3988) = l /\
  skipn 12 (l ++ repeat 0 3988) = repeat 0 3988.
Proof.
  intros H. split.
  - rewrite <- H. rewrite firstn_app, firstn_all, Nat.sub_diag.
    simpl. apply app_nil_r.
  - rewrite <- H. rewrite skipn_app, skipn_all, Nat.sub_diag.
    reflexivity.
Qed.

(** C6, as the code has it: for a record of exactly three alphabet symbols
    whose description parses, the appended vector has 4000 entries and its
    last 3988 entries are 0.  Its first 12 entries are the one-hot codes of
    the three symbols in order in the variant without the strand step, and
    in the variant with it whenever field[3] is not "-". *)
Theorem C6_three_symbols_zero_padded :
  forall r st f1 label strand a b c,
    field (description r) 1 = Some f1 ->
    py_int f1 = inr label ->
    field (description r) 3 = Some strand ->
    seq r = [a; b; c] ->
    over_alphabet (seq r) ->
    (exists v,
        Strand.process_seq_record r st =
          (inr tt, mkStore (X st ++ [v]) (y st ++ [label])) /\
        List.length v = 4000%nat /\
        skipn 12 v = repeat 0 3988 /\
        (strand <> "-"%string ->
         firstn 12 v = one_hot a ++ one_hot b ++ one_hot c))
    /\
    (exists v,
        Basic.process_seq_record r st =
          (inr tt, mkStore (X st ++ [v]) (y st ++ [label])) /\
        List.length v = 4000%nat /\
        skipn 12 v = repeat 0 3988 /\
        firstn 12 v = one_hot a ++ one_hot b ++ one_hot c).
Proof.
  intros r st f1 label strand a b c H1 Hl H3 Es Hs. split.
  - rewrite (strand_run r st f1 label strand H1 Hl H3).
    rewrite (to_positive_strand_known strand _ Hs).
    eexists. split; [reflexivity|].
    split; [now apply align_sequence_length|].
    assert (Hlu : over_alphabet (looked_up strand (seq r)))
      by now apply looked_up_over_alphabet.
    assert (H12 : List.length
                    (flatten (map one_hot (looked_up strand (seq r)))) =
                  12%nat).
    { rewrite (flatten_length _ (one_hot_lengths _ Hlu)).
      rewrite length_map, looked_up_length, Es. reflexivity. }
    rewrite (align_twelve _ H12).
    destruct (padded_parts _ H12) as [Hf Hk].
    split; [exact Hk|].
    intros Hne. rewrite Hf. unfold looked_up.
    destruct (String.eqb_spec strand "-") as [E|_]; [contradiction|].
    rewrite Es in *. now apply three_codes.
  - rewrite (basic_run r st f1 label H1 Hl).
    rewrite (comprehension_known _ Hs).
    eexists. split; [reflexivity|].
    split; [now apply align_sequence_length|].
    rewrite Es in *. destruct (three_codes a b c Hs) as [Hc H12].
    rewrite (align_twelve _ H12).
    destruct (padded_parts _ H12) as [Hf Hk].
    split; [exact Hk|]. now rewrite Hf.
Qed.

Lemma C6_witness :
  let r := mkRecord "r1" "r1" "id|1|extra|+" (chars "ACG") in
  exists v,
    Strand.process_seq_record r st0 = (inr tt, mkStore [v] [1]) /\
    firstn 12 v = [1; 0; 0; 0; 0; 1; 0; 0; 0; 0; 1; 0] /\
    skipn 12 v = repeat 0 3988.
Proof.
  intros r.
  assert (Hs : over_alphabet (seq r)) by (repeat constructor).
  assert (Hne : "+"%string <> "-"%string) by discriminate.
  destruct (C6_three_symbols_zero_padded r st0 "1"%string 1 "+"%string
              "A" "C" "G" eq_refl eq_refl eq_refl eq_refl Hs)
    as [[v [Hrun [_ [Hk Hf]]]] _].
  exists v. split; [exact Hrun|]. split; [exact (Hf Hne) | exact Hk].
Defined.

(** C6 as stated fails in the variant with the strand step: for AAA on
    strand "-" the first 12 entries are the codes of T,T,T. *)
Lemma C6_counterexample :
  ~ (forall r st f1 label strand a b c v,
        field (description r) 1 = Some f1 ->
        py_int f1 = inr label ->
        field (description r) 3 = Some strand ->
        seq r = [a; b; c] ->
        over_alphabet (seq r) ->
        Strand.process_seq_record r st =
          (inr tt, mkStore (X st ++ [v]) (y st ++ [label])) ->
        firstn 12 v = one_hot a ++ one_hot b ++ one_hot c /\
        skipn 12 v = repeat 0 3988).
Proof.
  intros H.
  assert (Hs : over_alphabet (chars "AAA")) by (repeat constructor).
  destruct (H (mkRecord "r1" "r1" "id|1|extra|-" (chars "AAA")) st0
              "1"%string 1 "-"%string "A" "A" "A"
              (align_sequence 4000 (flatten (map one_hot (chars "TTT"))))
              eq_refl eq_refl eq_refl eq_refl Hs)
    as [Hf _].
  - vm_compute. reflexivity.
  - vm_compute in Hf. discriminate Hf.
Qed.

(** ** Unknown symbols *)




(** ** The strand field and the label *)

(** C7: in the variant without the strand step, two records with the same
    symbols whose descriptions agree on every field but field[3] are
    processed alike: same outcome, same appended label, same appended
    vector. *)
Theorem C7_strand_field_ignored :
  forall r1 r2 st,
    seq r1 = seq r2 ->
    (forall i, i <> 3%nat ->
               field (description r1) i = field (description r2) i) ->
    Basic.process_seq_record r1 st = Basic.process_seq_record r2 st.
Proof.
  intros r1 r2 st Es Hf.
  assert (H1 : field (description r1) 1 = field (description r2) 1)
    by (apply Hf; discriminate).
  unfold field in H1.
  unfold Basic.process_seq_record, bind, lift, getitem.
  rewrite H1, Es. reflexivity.
Qed.

Lemma C7_witness :
  let r1 := mkRecord "r1" "r1" "id|1|extra|+" (chars "AACG") in
  let r2 := mkRecord "r1" "r1" "id|1|extra|-" (chars "AACG") in
  field (description r1) 3 <> field (description r2) 3 /\
  Basic.process_seq_record r1 st0 = Basic.process_seq_record r2 st0.
Proof.
  intros r1 r2. split; [discriminate|].
  apply C7_strand_field_ignored; [reflexivity|].
  intros [|[|[|[|[|i]]]]] Hi; try reflexivity. now contradiction Hi.
Defined.

(** C8: when the description has at least four fields and field[1]
    parses as the integer [label], both variants append exactly [label]
    to [y], whatever its value and whatever happens to the symbols
    afterwards; over the alphabet the call succeeds. *)
Theorem C8_label_appended_verbatim :
  forall r st f1 label strand,
    field (description r) 1 = Some f1 ->
    py_int f1 = inr label ->
    field (description r) 3 = Some strand ->
    y (snd (Strand.process_seq_record r st)) = y st ++ [label] /\
    y (snd (Basic.process_seq_record r st)) = y st ++ [label] /\
    (over_alphabet (seq r) ->
     fst (Strand.process_seq_record r st) = inr tt /\
     fst (Basic.process_seq_record r st) = inr tt).
Proof.
  intros r st f1 label strand H1 Hl H3.
  rewrite (strand_run r st f1 label strand H1 Hl H3).
  rewrite (basic_run r st f1 label H1 Hl).
  repeat split.
  - now destruct (to_positive_strand strand (seq r)).
  - now destruct (comprehension base_pairs_at (seq r)).
  - now rewrite (to_positive_strand_known strand _ H).
  - now rewrite (comprehension_known _ H).
Qed.

Lemma C8_witness :
  let r := mkRecord "r1" "r1" "id|-7|extra|+" (chars "ACGT") in
  let r' := mkRecord "r2" "r2" "id|2|extra|-" (chars "ACGT") in
  y (snd (Strand.process_seq_record r (mkStore [] [0; 1]))) = [0; 1; -7] /\
  y (snd (Basic.process_seq_record r' (mkStore [] [0; 1]))) = [0; 1; 2].
Proof.
  intros r r'. split.
  - exact (proj1 (C8_label_appended_verbatim r (mkStore [] [0; 1])
                    "-7"%string (-7) "+"%string eq_refl eq_refl eq_refl)).
  - exact (proj1 (proj2
             (C8_label_appended_verbatim r' (mkStore [] [0; 1])
                "2"%string 2 "-"%string eq_refl eq_refl eq_refl))).
Defined.

(** ** Determinism *)

(** What a call adds to the collections does not depend on what they
    already hold: it is what the call adds to empty ones. *)
Lemma strand_frame r st :
  Strand.process_seq_record r st =
  (fst (Strand.process_seq_record r st0),
   mkStore (X st ++ X (snd (Strand.process_seq_record r st0)))
           (y st ++ y (snd (Strand.process_seq_record r st0)))).
Proof.
  destruct st as [Xs ys].
  unfold Strand.process_seq_record, bind, lift.
  destruct (getitem (split "|" (description r)) 1) as [e|f1];
    [simpl; now rewrite !app_nil_r|].
  destruct (py_int f1) as [e|label]; [simpl; now rewrite !app_nil_r|].
  simpl.
  destruct (getitem (split "|" (description r)) 3) as [e|strand];
    [simpl; now rewrite !app_nil_r|].
  destruct (to_positive_strand strand (seq r)) as [e|u]; simpl;
    now rewrite ?app_nil_r.
Qed.

Lemma basic_frame r st :
  Basic.process_seq_record r st =
  (fst (Basic.process_seq_record r st0),
   mkStore (X st ++ X (snd (Basic.process_seq_record r st0)))
           (y st ++ y (snd (Basic.process_seq_record r st0)))).
Proof.
  destruct st as [Xs ys].
  unfold Basic.process_seq_record, bind, lift.
  destruct (getitem (split "|" (description r)) 1) as [e|f1];
    [simpl; now rewrite !app_nil_r|].
  destruct (py_int f1) as [e|label]; [simpl; now rewrite !app_nil_r|].
  simpl.
  destruct (comprehension base_pairs_at (seq r)) as [e|u]; simpl;
    now rewrite ?app_nil_r.
Qed.

Lemma strand_reads r1 r2 st :
  description r1 = description r2 -> seq r1 = seq r2 ->
  Strand.process_seq_record r1 st = Strand.process_seq_record r2 st.
Proof.
  intros Ed Es. unfold Strand.process_seq_record. now rewrite Ed, Es.
Qed.

Lemma basic_reads r1 r2 st :
  description r1 = description r2 -> seq r1 = seq r2 ->
  Basic.process_seq_record r1 st = Basic.process_seq_record r2 st.
Proof.
  intros Ed Es. unfold Basic.process_seq_record. now rewrite Ed, Es.
Qed.

(** C9: two records with the same description and the same symbols are
    processed alike, in both variants: there is one outcome, one list of
    appended vectors and one list of appended labels, fixed by the
    description and the symbols alone, that every call on either record
    produces whatever the collections held before. *)
Theorem C9_deterministic :
  forall r1 r2,
    description r1 = description r2 ->
    seq r1 = seq r2 ->
    (exists outcome dX dy,
        forall st,
          Strand.process_seq_record r1 st =
            (outcome, mkStore (X st ++ dX) (y st ++ dy)) /\
          Strand.process_seq_record r2 st =
            (outcome, mkStore (X st ++ dX) (y st ++ dy)))
    /\
    (exists outcome dX dy,
        forall st,
          Basic.process_seq_record r1 st =
            (outcome, mkStore (X st ++ dX) (y st ++ dy)) /\
          Basic.process_seq_record r2 st =
            (outcome, mkStore (X st ++ dX) (y st ++ dy))).
Proof.
  intros r1 r2 Ed Es. split.
  - exists (fst (Strand.process_seq_record r1 st0)),
           (X (snd (Strand.process_seq_record r1 st0))),
           (y (snd (Strand.process_seq_record r1 st0))).
    intros st. rewrite <- (strand_reads r1 r2 st Ed Es).
    split; apply strand_frame.
  - exists (fst (Basic.process_seq_record r1 st0)),
           (X (snd (Basic.process_seq_record r1 st0))),
           (y (snd (Basic.process_seq_record r1 st0))).
    intros st. rewrite <- (basic_reads r1 r2 st Ed Es).
    split; apply basic_frame.
Qed.

Lemma C9_witness :
  let r1 := mkRecord "r1" "first" "id|1|extra|-" (chars "AACG") in
  let r2 := mkRecord "r2" "second" "id|1|extra|-" (chars "AACG") in
  Strand.process_seq_record r1 st0 = Strand.process_seq_record r2 st0 /\
  Basic.process_seq_record r1 st0 = Basic.process_seq_record r2 st0.
Proof.
  intros r1 r2.
  destruct (C9_deterministic r1 r2 eq_refl eq_refl)
    as [[o [dX [dy Hs]]] [o' [dX' [dy' Hb]]]].
  split.
  - destruct (Hs st0) as [-> ->]. reflexivity.
  - destruct (Hb st0) as [-> ->]. reflexivity.
Defined.

(** * Further properties of the cells *)

Example endswith_samples :
  endswith "a.fa" ".fa" = true /\ endswith ".fa" ".fa" = true /\
  endswith "fa" ".fa" = false /\ endswith "a.fa.txt" ".fa" = false /\
  endswith ".DS_Store" ".fa" = false.
Proof. repeat split. Qed.

(** ** [align_sequence] for any length *)

Lemma nth_app_zeros (l : list Z) k i :
  nth i (l ++ repeat 0 k) 0 = nth i l 0.
Proof.
  destruct (Nat.lt_ge_cases i (List.length l)) as [Hi|Hi].
  - now apply app_nth1.
  - rewrite app_nth2 by lia. rewrite nth_repeat.
    symmetry. now apply nth_overflow.
Qed.

Lemma align_sequence_nth n l i :
  0 <= n -> (i < Z.to_nat n)%nat ->
  nth i (align_sequence n l) 0 = nth i l 0.
Proof.
  intros Hn Hi. destruct (Z_lt_le_dec n (Z.of_nat (List.length l))).
  - rewrite align_sequence_long by lia. rewrite nth_firstn.
    destruct (Nat.ltb_spec i (Z.to_nat n)); [reflexivity|lia].
  - rewrite align_sequence_short by lia. apply nth_app_zeros.
Qed.

Lemma align_sequence_ext n l l' :
  0 <= n ->
  (forall i, (i < Z.to_nat n)%nat -> nth i l 0 = nth i l' 0) ->
  align_sequence n l = align_sequence n l'.
Proof.
  intros Hn H. apply (nth_ext _ _ 0 0).
  - now rewrite !align_sequence_length.
  - intros i Hi. rewrite align_sequence_length in Hi by assumption.
    rewrite !align_sequence_nth by assumption. now apply H.
Qed.

Lemma align_sequence_zeros n l k :
  0 <= n -> align_sequence n (l ++ repeat 0 k) = align_sequence n l.
Proof.
  intros Hn. apply align_sequence_ext; [assumption|].
  intros i _. apply nth_app_zeros.
Qed.

(** X1: for a length that is not negative, [align_sequence] returns
    exactly that many entries, and entry [i] of the result is entry [i] of
    the input, or 0 where the input has no entry [i]. *)
Theorem X1_align_sequence_entries :
  forall n l,
    0 <= n ->
    List.length (align_sequence n l) = Z.to_nat n /\
    (forall i, (i < Z.to_nat n)%nat ->
               nth i (align_sequence n l) 0 = nth i l 0).
Proof.
  intros n l Hn. split.
  - now apply align_sequence_length.
  - intros i Hi. now apply align_sequence_nth.
Qed.

Lemma X1_witness :
  align_sequence 6 [1; 0; 1] = [1; 0; 1; 0; 0; 0] /\
  List.length (align_sequence 2 [1; 0; 1]) = 2%nat /\
  nth 1 (align_sequence 2 [1; 0; 1]) 0 = 0.
Proof.
  assert (H2 : 0 <= 2) by lia.
  destruct (X1_align_sequence_entries 2 [1; 0; 1] H2) as [Hlen Hnth].
  split; [reflexivity|]. split; [exact Hlen|].
  rewrite (Hnth 1%nat); [reflexivity|]. simpl. lia.
Defined.

(** X2: for a negative length the input is always the longer one, so the
    slice branch runs: the result is the input without its last [-length]
    entries (empty when there are not that many), and nothing is padded. *)
Theorem X2_align_sequence_negative_length :
  forall n l,
    n < 0 ->
    align_sequence n l = firstn (List.length l - Z.to_nat (- n)) l /\
    List.length (align_sequence n l) =
      (List.length l - Z.to_nat (- n))%nat.
Proof.
  intros n l Hn.
  assert (E : align_sequence n l =
              firstn (List.length l - Z.to_nat (- n)) l).
  { unfold align_sequence, slice_to.
    destruct (Z.gtb_spec (Z.of_nat (List.length l)) n); [|lia].
    destruct (Z.ltb_spec n 0); [|lia].
    f_equal. lia. }
  split; [exact E|].
  rewrite E, length_firstn. lia.
Qed.

Lemma X2_witness :
  align_sequence (-1) [1; 0; 1] = [1; 0] /\
  align_sequence (-5) [1; 0; 1] = [].
Proof.
  assert (H1 : -1 < 0) by lia.
  assert (H5 : -5 < 0) by lia.
  split.
  - rewrite (proj1 (X2_align_sequence_negative_length (-1) [1; 0; 1] H1)).
    reflexivity.
  - rewrite (proj1 (X2_align_sequence_negative_length (-5) [1; 0; 1] H5)).
    reflexivity.
Defined.

(** X3: aligning to [n] and then to a length [m] that is not larger is
    aligning to [m] at once; in particular aligning twice to the same
    length changes nothing more. *)
Theorem X3_align_sequence_twice :
  forall m n l,
    0 <= m -> m <= n ->
    align_sequence m (align_sequence n l) = align_sequence m l.
Proof.
  intros m n l Hm Hmn. apply align_sequence_ext; [assumption|].
  intros i Hi. apply align_sequence_nth; lia.
Qed.

Lemma X3_witness :
  align_sequence 2 (align_sequence 5 [1; 1; 1]) = [1; 1] /\
  align_sequence 5 (align_sequence 5 [1; 1; 1]) = align_sequence 5 [1; 1; 1].
Proof.
  split.
  - rewrite (X3_align_sequence_twice 2 5 [1; 1; 1]) by lia. reflexivity.
  - apply X3_align_sequence_twice; lia.
Defined.

(** ** More on the table and the lookups *)

Lemma alphabet_or_unknown s : over_alphabet s \/ has_unknown s.
Proof.
  induction s as [|c s [IH|IH]].
  - left. constructor.
  - destruct (in_alphabet c) eqn:Ec.
    + left. now constructor.
    + right. now apply Exists_cons_hd.
  - right. now apply Exists_cons_tl.
Qed.

Lemma comprehension_inr s u :
  comprehension base_pairs_at s = inr u ->
  over_alphabet s /\ u = map one_hot s.
Proof.
  intros E. destruct (alphabet_or_unknown s) as [Hs|Hu].
  - split; [assumption|].
    rewrite (comprehension_known s Hs) in E. congruence.
  - destruct (comprehension_unknown s Hu) as [k [_ [_ Ek]]]. congruence.
Qed.

Lemma comprehension_app {A B} (f : A -> result B) a b :
  comprehension f (a ++ b) =
  match comprehension f a with
  | inl e => inl e
  | inr u =>
      match comprehension f b with
      | inl e => inl e
      | inr v => inr (u ++ v)
      end
  end.
Proof.
  induction a as [|x a IH]; simpl.
  - now destruct (comprehension f b).
  - destruct (f x) as [e|y]; [reflexivity|]. rewrite IH.
    destruct (comprehension f a) as [e|u]; [reflexivity|].
    now destruct (comprehension f b).
Qed.

Lemma one_hot_binary c :
  in_alphabet c = true -> Forall (fun z => z = 0 \/ z = 1) (one_hot c).
Proof.
  intros H. apply in_alphabet_In in H. unfold alphabet in H. simpl in H.
  repeat (destruct H as [<- | H];
          [cbv; repeat (apply Forall_cons; [auto|]); apply Forall_nil|]).
  contradiction.
Qed.

Lemma flatten_binary s :
  over_alphabet s ->
  Forall (fun z => z = 0 \/ z = 1) (flatten (map one_hot s)).
Proof.
  unfold flatten. induction 1 as [|c s Hc Hs IH]; simpl; [constructor|].
  apply Forall_app. split; [now apply one_hot_binary | exact IH].
Qed.

Lemma align_sequence_binary l :
  Forall (fun z => z = 0 \/ z = 1) l ->
  Forall (fun z => z = 0 \/ z = 1) (align_sequence 4000 l).
Proof.
  intros H. destruct (Z_lt_le_dec 4000 (Z.of_nat (List.length l))).
  - rewrite align_sequence_long by lia. now apply Forall_firstn.
  - rewrite align_sequence_short by lia. apply Forall_app. split; [exact H|].
    apply Forall_forall. intros z Hz. apply repeat_spec in Hz. auto.
Qed.

Lemma feature_row_of s :
  over_alphabet s ->
  feature_row (align_sequence 4000 (flatten (map one_hot s))).
Proof.
  intros Hs. split.
  - now rewrite align_sequence_length.
  - now apply align_sequence_binary, flatten_binary.
Qed.

(** The outcome of one call, stage by stage. *)
Lemma strand_cases r st :
  (field (description r) 1 = None /\
   Strand.process_seq_record r st = (inl IndexError, st))
  \/
  (exists f1,
      field (description r) 1 = Some f1 /\ py_int f1 = inl ValueError /\
      Strand.process_seq_record r st = (inl ValueError, st))
  \/
  (exists f1 label,
      field (description r) 1 = Some f1 /\ py_int f1 = inr label /\
      field (description r) 3 = None /\
      Strand.process_seq_record r st =
        (inl IndexError, mkStore (X st) (y st ++ [label])))
  \/
  (exists f1 label strand,
      field (description r) 1 = Some f1 /\ py_int f1 = inr label /\
      field (description r) 3 = Some strand /\
      Strand.process_seq_record r st =
        match to_positive_strand strand (seq r) with
        | inr u =>
            (inr tt,
             mkStore (X st ++ [align_sequence 4000 (flatten u)])
                     (y st ++ [label]))
        | inl e => (inl e, mkStore (X st) (y st ++ [label]))
        end).
Proof.
  destruct (field (description r) 1) as [f1|] eqn:E1.
  - destruct (py_int f1) as [e|label] eqn:El.
    + right. left. exists f1.
      assert (e = ValueError) as ->.
      { unfold py_int in El.
        destruct (match strip (list_ascii_of_string f1) with
                  | [] => _ | _ => _ end); congruence. }
      split; [reflexivity|]. split; [exact El|].
      unfold field in E1.
      unfold Strand.process_seq_record, bind, lift, getitem.
      now rewrite E1, El.
    + destruct (field (description r) 3) as [strand|] eqn:E3.
      * right. right. right. exists f1, label, strand.
        repeat split; try assumption.
        exact (strand_run r st f1 label strand E1 El E3).
      * right. right. left. exists f1, label.
        repeat split; try assumption.
        unfold field in E1, E3.
        unfold Strand.process_seq_record, bind, lift, getitem.
        now rewrite E1, El, E3.
  - left. split; [reflexivity|].
    unfold field in E1.
    unfold Strand.process_seq_record, bind, lift, getitem.
    now rewrite E1.
Qed.

Lemma basic_cases r st :
  (field (description r) 1 = None /\
   Basic.process_seq_record r st = (inl IndexError, st))
  \/
  (exists f1,
      field (description r) 1 = Some f1 /\ py_int f1 = inl ValueError /\
      Basic.process_seq_record r st = (inl ValueError, st))
  \/
  (exists f1 label,
      field (description r) 1 = Some f1 /\ py_int f1 = inr label /\
      Basic.process_seq_record r st =
        match comprehension base_pairs_at (seq r) with
        | inr u =>
            (inr tt,
             mkStore (X st ++ [align_sequence 4000 (flatten u)])
                     (y st ++ [label]))
        | inl e => (inl e, mkStore (X st) (y st ++ [label]))
        end).
Proof.
  destruct (field (description r) 1) as [f1|] eqn:E1.
  - destruct (py_int f1) as [e|label] eqn:El.
    + right. left. exists f1.
      assert (e = ValueError) as ->.
      { unfold py_int in El.
        destruct (match strip (list_ascii_of_string f1) with
                  | [] => _ | _ => _ end); congruence. }
      split; [reflexivity|]. split; [exact El|].
      unfold field in E1.
      unfold Basic.process_seq_record, bind, lift, getitem.
      now rewrite E1, El.
    + right. right. exists f1, label.
      repeat split; try assumption.
      exact (basic_run r st f1 label E1 El).
  - left. split; [reflexivity|].
    unfold field in E1.
    unfold Basic.process_seq_record, bind, lift, getitem.
    now rewrite E1.
Qed.

(** ** One call of [process_seq_record], whatever the record *)

Lemma strand_success_row r st st' :
  Strand.process_seq_record r st = (inr tt, st') ->
  exists v label,
    st' = mkStore (X st ++ [v]) (y st ++ [label]) /\
    feature_row v /\ labelled r label.
Proof.
  intros H.
  destruct (strand_cases r st)
    as [[_ E]|[[f1 [_ [_ E]]]|[[f1 [l [_ [_ [_ E]]]]]
       |[f1 [l [strand [E1 [El [_ E]]]]]]]]];
    rewrite E in H; try discriminate H.
  rewrite to_positive_strand_looked_up in H.
  destruct (comprehension base_pairs_at (looked_up strand (seq r)))
    as [e|u] eqn:Eu; [discriminate H|].
  destruct (comprehension_inr _ _ Eu) as [Hs ->].
  injection H as <-. eexists _, l. split; [reflexivity|].
  split; [now apply feature_row_of | now exists f1].
Qed.

Lemma basic_success_row r st st' :
  Basic.process_seq_record r st = (inr tt, st') ->
  exists v label,
    st' = mkStore (X st ++ [v]) (y st ++ [label]) /\
    feature_row v /\ labelled r label.
Proof.
  intros H.
  destruct (basic_cases r st)
    as [[_ E]|[[f1 [_ [_ E]]]|[f1 [l [E1 [El E]]]]]];
    rewrite E in H; try discriminate H.
  destruct (comprehension base_pairs_at (seq r)) as [e|u] eqn:Eu;
    [discriminate H|].
  destruct (comprehension_inr _ _ Eu) as [Hs ->].
  injection H as <-. eexists _, l. split; [reflexivity|].
  split; [now apply feature_row_of | now exists f1].
Qed.

Lemma strand_failure_row r st e st' :
  Strand.process_seq_record r st = (inl e, st') ->
  st' = st \/
  exists label, labelled r label /\ st' = mkStore (X st) (y st ++ [label]).
Proof.
  intros H.
  destruct (strand_cases r st)
    as [[_ E]|[[f1 [_ [_ E]]]|[[f1 [l [E1 [El [_ E]]]]]
       |[f1 [l [strand [E1 [El [_ E]]]]]]]]];
    rewrite E in H.
  - left. congruence.
  - left. congruence.
  - right. exists l. split; [now exists f1 | congruence].
  - right. exists l. split; [now exists f1|].
    destruct (to_positive_strand strand (seq r)); congruence.
Qed.

Lemma basic_failure_row r st e st' :
  Basic.process_seq_record r st = (inl e, st') ->
  st' = st \/
  exists label, labelled r label /\ st' = mkStore (X st) (y st ++ [label]).
Proof.
  intros H.
  destruct (basic_cases r st)
    as [[_ E]|[[f1 [_ [_ E]]]|[f1 [l [E1 [El E]]]]]];
    rewrite E in H.
  - left. congruence.
  - left. congruence.
  - right. exists l. split; [now exists f1|].
    destruct (comprehension base_pairs_at (seq r)); congruence.
Qed.

(** X4: whenever a call succeeds, in either variant, it has appended
    exactly one label to [y] and exactly one vector to [X], after the
    entries already there; the vector has 4000 entries and each of them is
    0 or 1. *)
Theorem X4_success_appends_one_row :
  forall r st st',
    (Strand.process_seq_record r st = (inr tt, st') ->
     exists v label,
       st' = mkStore (X st ++ [v]) (y st ++ [label]) /\ feature_row v)
    /\
    (Basic.process_seq_record r st = (inr tt, st') ->
     exists v label,
       st' = mkStore (X st ++ [v]) (y st ++ [label]) /\ feature_row v).
Proof.
  intros r st st'. split; intros H.
  - destruct (strand_success_row r st st' H) as [v [l [E [Hv _]]]].
    now exists v, l.
  - destruct (basic_success_row r st st' H) as [v [l [E [Hv _]]]].
    now exists v, l.
Qed.

Lemma X4_witness :
  let r := mkRecord "r1" "r1" "id|1|extra|-" (chars "ACGTN") in
  exists st' v label,
    Strand.process_seq_record r st0 = (inr tt, st') /\
    st' = mkStore [v] [label] /\ feature_row v.
Proof.
  intros r.
  assert (Hrun : Strand.process_seq_record r st0 =
                 (inr tt, snd (Strand.process_seq_record r st0))).
  { vm_compute. reflexivity. }
  destruct (proj1 (X4_success_appends_one_row r st0 _) Hrun)
    as [v [label [E Hv]]].
  exists (snd (Strand.process_seq_record r st0)), v, label.
  split; [exact Hrun|]. split; [exact E | exact Hv].
Defined.

(** X5: a call succeeds exactly when the description has a field[1] that
    [int] accepts and every character looked up is a key of the table; the
    variant with the strand step needs a field[3] as well, and looks up
    the complement when that field is "-". *)
Theorem X5_success_exactly_when :
  forall r st,
    (fst (Basic.process_seq_record r st) = inr tt <->
     exists f1 label,
       field (description r) 1 = Some f1 /\ py_int f1 = inr label /\
       over_alphabet (seq r))
    /\
    (fst (Strand.process_seq_record r st) = inr tt <->
     exists f1 label strand,
       field (description r) 1 = Some f1 /\ py_int f1 = inr label /\
       field (description r) 3 = Some strand /\
       over_alphabet (looked_up strand (seq r))).
Proof.
  intros r st. split; split.
  - intros H.
    destruct (basic_cases r st)
      as [[_ E]|[[f1 [_ [_ E]]]|[f1 [l [E1 [El E]]]]]];
      rewrite E in H; try discriminate H.
    destruct (comprehension base_pairs_at (seq r)) as [e|u] eqn:Eu;
      [discriminate H|].
    exists f1, l. repeat split; try assumption.
    now destruct (comprehension_inr _ _ Eu).
  - intros [f1 [l [E1 [El Hs]]]].
    rewrite (basic_run r st f1 l E1 El).
    now rewrite (comprehension_known _ Hs).
  - intros H.
    destruct (strand_cases r st)
      as [[_ E]|[[f1 [_ [_ E]]]|[[f1 [l [_ [_ [_ E]]]]]
         |[f1 [l [strand [E1 [El [E3 E]]]]]]]]];
      rewrite E in H; try discriminate H.
    rewrite to_positive_strand_looked_up in H.
    destruct (comprehension base_pairs_at (looked_up strand (seq r)))
      as [e|u] eqn:Eu; [discriminate H|].
    exists f1, l, strand. repeat split; try assumption.
    now destruct (comprehension_inr _ _ Eu).
  - intros [f1 [l [strand [E1 [El [E3 Hs]]]]]].
    rewrite (strand_run r st f1 l strand E1 El E3).
    rewrite to_positive_strand_looked_up.
    now rewrite (comprehension_known _ Hs).
Qed.

Lemma X5_witness :
  let r := mkRecord "r1" "r1" "id|1|extra" (chars "ACGU") in
  ~ over_alphabet (seq r) /\
  fst (Basic.process_seq_record r st0) <> inr tt.
Proof.
  intros r.
  assert (Hn : ~ over_alphabet (seq r)).
  { intros H. unfold over_alphabet in H. rewrite Forall_forall in H.
    assert (HU : in_alphabet "U" = true).
    { apply H. unfold r. simpl. auto. }
    discriminate HU. }
  split; [exact Hn|].
  intros H.
  destruct (proj1 (proj1 (X5_success_exactly_when r st0)) H)
    as [f1 [label [_ [_ Hs]]]].
  exact (Hn Hs).
Defined.

(** X6: a description without a field[1], or whose field[1] is no
    integer, ends the call with [IndexError] or [ValueError] before
    anything is appended: both collections are as they were, whatever the
    symbols are. *)
Theorem X6_description_errors_leave_store :
  forall r st,
    (field (description r) 1 = None ->
     Strand.process_seq_record r st = (inl IndexError, st) /\
     Basic.process_seq_record r st = (inl IndexError, st))
    /\
    (forall f1,
        field (description r) 1 = Some f1 ->
        py_int f1 = inl ValueError ->
        Strand.process_seq_record r st = (inl ValueError, st) /\
        Basic.process_seq_record r st = (inl ValueError, st)).
Proof.
  intros r st. split.
  - intros E1. unfold field in E1.
    unfold Strand.process_seq_record, Basic.process_seq_record,
      bind, lift, getitem.
    now rewrite E1.
  - intros f1 E1 El. unfold field in E1.
    unfold Strand.process_seq_record, Basic.process_seq_record,
      bind, lift, getitem.
    now rewrite E1, El.
Qed.

Lemma X6_witness :
  let st := mkStore [[1; 0]] [1] in
  Strand.process_seq_record (mkRecord "r1" "r1" "id" (chars "X")) st =
    (inl IndexError, st) /\
  Basic.process_seq_record (mkRecord "r1" "r1" "id|yes|e|+" (chars "X")) st =
    (inl ValueError, st).
Proof.
  intros st. split.
  - exact (proj1 (proj1 (X6_description_errors_leave_store
                           (mkRecord "r1" "r1" "id" (chars "X")) st)
                        eq_refl)).
  - exact (proj2 (proj2 (X6_description_errors_leave_store
                           (mkRecord "r1" "r1" "id|yes|e|+" (chars "X")) st)
                        "yes"%string eq_refl eq_refl)).
Defined.

(** X7: a description with an integer field[1] but fewer than four fields
    stops the variant with the strand step with [IndexError] after the
    label went into [y], before any symbol is looked up; the variant
    without the strand step never reads field[3] and succeeds on the same
    record when its symbols are in the alphabet. *)
Theorem X7_missing_strand_field :
  forall r st f1 label,
    field (description r) 1 = Some f1 ->
    py_int f1 = inr label ->
    field (description r) 3 = None ->
    Strand.process_seq_record r st =
      (inl IndexError, mkStore (X st) (y st ++ [label])) /\
    (over_alphabet (seq r) ->
     Basic.process_seq_record r st =
       (inr tt,
        mkStore
          (X st ++ [align_sequence 4000 (flatten (map one_hot (seq r)))])
          (y st ++ [label]))).
Proof.
  intros r st f1 label E1 El E3. split.
  - unfold field in E1, E3.
    unfold Strand.process_seq_record, bind, lift, getitem.
    now rewrite E1, El, E3.
  - intros Hs. rewrite (basic_run r st f1 label E1 El).
    now rewrite (comprehension_known _ Hs).
Qed.

Lemma X7_witness :
  let r := mkRecord "r1" "r1" "id|1|extra" (chars "ACGT") in
  Strand.process_seq_record r st0 = (inl IndexError, mkStore [] [1]) /\
  fst (Basic.process_seq_record r st0) = inr tt.
Proof.
  intros r.
  destruct (X7_missing_strand_field r st0 "1"%string 1
              eq_refl eq_refl eq_refl) as [Hs Hb].
  split; [exact Hs|].
  rewrite Hb; [reflexivity|]. repeat constructor.
Defined.

(** ** Which symbols matter *)

Lemma comprehension_first_unknown p k t :
  over_alphabet p -> in_alphabet k = false ->
  comprehension base_pairs_at (p ++ k :: t) = inl (KeyError k).
Proof.
  intros Hp Hk. rewrite comprehension_app, (comprehension_known p Hp).
  simpl. now rewrite (base_pairs_at_unknown k Hk).
Qed.

(** X8: the [KeyError] names the first character that is not in the
    table: the characters before it were looked up, those after it never
    are, and the call ends with the label in [y] and nothing added to
    [X]. *)
Theorem X8_first_unknown_symbol_named :
  forall r st f1 label p k t,
    field (description r) 1 = Some f1 ->
    py_int f1 = inr label ->
    seq r = p ++ k :: t ->
    over_alphabet p ->
    in_alphabet k = false ->
    Basic.process_seq_record r st =
      (inl (KeyError k), mkStore (X st) (y st ++ [label])) /\
    (forall strand,
        field (description r) 3 = Some strand ->
        strand <> "-"%string ->
        Strand.process_seq_record r st =
          (inl (KeyError k), mkStore (X st) (y st ++ [label]))).
Proof.
  intros r st f1 label p k t E1 El Es Hp Hk. split.
  - rewrite (basic_run r st f1 label E1 El), Es.
    now rewrite (comprehension_first_unknown p k t Hp Hk).
  - intros strand E3 Hne.
    rewrite (strand_run r st f1 label strand E1 El E3), Es.
    unfold to_positive_strand.
    destruct (String.eqb_spec strand "-") as [E|_]; [contradiction|].
    now rewrite (comprehension_first_unknown p k t Hp Hk).
Qed.

Lemma X8_witness :
  let r := mkRecord "r1" "r1" "id|1|extra|+" (chars "ACxGy") in
  Basic.process_seq_record r st0 = (inl (KeyError "x"), mkStore [] [1]).
Proof.
  intros r.
  assert (Hp : over_alphabet (chars "AC")) by (repeat constructor).
  exact (proj1 (X8_first_unknown_symbol_named r st0 "1"%string 1
                  (chars "AC") "x" (chars "Gy")
                  eq_refl eq_refl eq_refl Hp eq_refl)).
Defined.

Lemma N_codes ns :
  Forall (fun c => c = "N" \/ c = "n") ns ->
  comprehension base_pairs_at ns = inr (map one_hot ns) /\
  flatten (map one_hot ns) = repeat 0 (4 * List.length ns) /\
  complement ns = ns.
Proof.
  induction 1 as [|c ns Hc Hns [IH1 [IH2 IH3]]].
  - repeat split.
  - unfold flatten, complement in *.
    destruct Hc as [-> | ->]; simpl; rewrite IH1, IH2, IH3;
      repeat split; f_equal;
      replace (List.length ns + S (List.length ns + S (List.length ns +
                 S (List.length ns + 0))))%nat
        with (S (S (S (4 * List.length ns)))) by lia;
      reflexivity.
Qed.

Lemma flatten_app a b : flatten (a ++ b) = flatten a ++ flatten b.
Proof. unfold flatten. apply concat_app. Qed.

Lemma comprehension_trailing_N s ns :
  Forall (fun c => c = "N" \/ c = "n") ns ->
  match comprehension base_pairs_at (s ++ ns),
        comprehension base_pairs_at s with
  | inr u', inr u =>
      align_sequence 4000 (flatten u') = align_sequence 4000 (flatten u)
  | inl e', inl e => e' = e
  | _, _ => False
  end.
Proof.
  intros Hns. destruct (N_codes ns Hns) as [E1 [E2 _]].
  rewrite comprehension_app, E1.
  destruct (comprehension base_pairs_at s) as [e|u]; [reflexivity|].
  rewrite flatten_app, E2. apply align_sequence_zeros. lia.
Qed.

(** X9: N and n at the end of a sequence cannot be told from padding:
    adding any number of them to the symbols of a record changes nothing
    in what either variant does, whatever the description, the strand and
    the length of the sequence. *)
Theorem X9_trailing_N_is_padding :
  forall r r' st ns,
    description r' = description r ->
    seq r' = seq r ++ ns ->
    Forall (fun c => c = "N" \/ c = "n") ns ->
    Strand.process_seq_record r' st = Strand.process_seq_record r st /\
    Basic.process_seq_record r' st = Basic.process_seq_record r st.
Proof.
  intros r r' st ns Ed Es Hns. split.
  - unfold Strand.process_seq_record, bind, lift. rewrite Ed, Es.
    destruct (getitem (split "|" (description r)) 1) as [e|f1];
      [reflexivity|].
    destruct (py_int f1) as [e|label]; [reflexivity|]. simpl.
    destruct (getitem (split "|" (description r)) 3) as [e|strand];
      [reflexivity|].
    rewrite !to_positive_strand_looked_up.
    assert (El : looked_up strand (seq r ++ ns) =
                 looked_up strand (seq r) ++ ns).
    { unfold looked_up. destruct (String.eqb strand "-"); [|reflexivity].
      unfold complement. rewrite map_app. f_equal.
      exact (proj2 (proj2 (N_codes ns Hns))). }
    rewrite El.
    pose proof (comprehension_trailing_N (looked_up strand (seq r)) ns Hns)
      as H.
    destruct (comprehension base_pairs_at (looked_up strand (seq r) ++ ns));
      destruct (comprehension base_pairs_at (looked_up strand (seq r)));
      try contradiction; now rewrite H.
  - unfold Basic.process_seq_record, bind, lift. rewrite Ed, Es.
    destruct (getitem (split "|" (description r)) 1) as [e|f1];
      [reflexivity|].
    destruct (py_int f1) as [e|label]; [reflexivity|]. simpl.
    pose proof (comprehension_trailing_N (seq r) ns Hns) as H.
    destruct (comprehension base_pairs_at (seq r ++ ns));
      destruct (comprehension base_pairs_at (seq r));
      try contradiction; now rewrite H.
Qed.

Lemma X9_witness :
  let r := mkRecord "r1" "r1" "id|1|extra|-" (chars "ACGT") in
  let r' := mkRecord "r1" "r1" "id|1|extra|-" (chars "ACGTNNn") in
  Strand.process_seq_record r' st0 = Strand.process_seq_record r st0.
Proof.
  intros r r'.
  assert (Hns : Forall (fun c => c = "N" \/ c = "n") (chars "NNn")).
  { repeat (apply Forall_cons; [auto|]). apply Forall_nil. }
  exact (proj1 (X9_trailing_N_is_padding r r' st0 (chars "NNn")
                  eq_refl eq_refl Hns)).
Defined.

Lemma upper_known c :
  in_alphabet c = true ->
  in_alphabet (upper c) = true /\
  one_hot (upper c) = one_hot c /\
  complement_base (upper c) = upper (complement_base c).
Proof.
  intros H. apply in_alphabet_In in H. unfold alphabet in H. simpl in H.
  repeat (destruct H as [<- | H]; [repeat split|]).
  contradiction.
Qed.

Lemma upper_codes s :
  over_alphabet s ->
  over_alphabet (map upper s) /\
  map one_hot (map upper s) = map one_hot s /\
  complement (map upper s) = map upper (complement s).
Proof.
  unfold complement.
  induction 1 as [|c s Hc Hs [IH1 [IH2 IH3]]]; simpl.
  - repeat split. constructor.
  - destruct (upper_known c Hc) as [H1 [H2 H3]].
    rewrite H2, H3, IH2, IH3. repeat split. now constructor.
Qed.

(** X10: the case of the letters is not kept: over the alphabet, a record
    and the same record with its symbols in upper case are processed
    alike by both variants. *)
Theorem X10_letter_case_ignored :
  forall r r' st,
    description r' = description r ->
    seq r' = map upper (seq r) ->
    over_alphabet (seq r) ->
    Strand.process_seq_record r' st = Strand.process_seq_record r st /\
    Basic.process_seq_record r' st = Basic.process_seq_record r st.
Proof.
  intros r r' st Ed Es Hs.
  destruct (upper_codes (seq r) Hs) as [Hu [Ec Ecomp]]. split.
  - unfold Strand.process_seq_record, bind, lift. rewrite Ed, Es.
    destruct (getitem (split "|" (description r)) 1) as [e|f1];
      [reflexivity|].
    destruct (py_int f1) as [e|label]; [reflexivity|]. simpl.
    destruct (getitem (split "|" (description r)) 3) as [e|strand];
      [reflexivity|].
    rewrite !to_positive_strand_known by assumption.
    unfold looked_up. destruct (String.eqb strand "-").
    + rewrite Ecomp.
      destruct (upper_codes _ (complement_over_alphabet _ Hs))
        as [_ [-> _]].
      reflexivity.
    + now rewrite Ec.
  - unfold Basic.process_seq_record, bind, lift. rewrite Ed, Es.
    destruct (getitem (split "|" (description r)) 1) as [e|f1];
      [reflexivity|].
    destruct (py_int f1) as [e|label]; [reflexivity|]. simpl.
    rewrite !comprehension_known by assumption.
    now rewrite Ec.
Qed.

Lemma X10_witness :
  let r := mkRecord "r1" "r1" "id|1|extra|-" (chars "acgTn") in
  let r' := mkRecord "r1" "r1" "id|1|extra|-" (chars "ACGTN") in
  Strand.process_seq_record r' st0 = Strand.process_seq_record r st0 /\
  Basic.process_seq_record r' st0 = Basic.process_seq_record r st0.
Proof.
  intros r r'.
  assert (Hs : over_alphabet (seq r)) by (repeat constructor).
  exact (X10_letter_case_ignored r r' st0 eq_refl eq_refl Hs).
Defined.

Lemma one_hot_complement c :
  in_alphabet c = true -> one_hot (complement_base c) = rev (one_hot c).
Proof.
  intros H. apply in_alphabet_In in H. unfold alphabet in H. simpl in H.
  repeat (destruct H as [<- | H]; [reflexivity|]).
  contradiction.
Qed.

(** X11: on strand "-" every symbol of the alphabet gets the mirror image
    of the code it gets on any other strand: the four entries of its code
    in reverse order, the codes themselves staying in the order of the
    symbols. *)
Theorem X11_minus_strand_mirrors_codes :
  forall s,
    over_alphabet s ->
    to_positive_strand "-" s = inr (map (fun c => rev (one_hot c)) s) /\
    to_positive_strand "+" s = inr (map one_hot s).
Proof.
  intros s Hs. split.
  - rewrite (to_positive_strand_known "-" s Hs).
    unfold looked_up, complement. simpl. rewrite map_map. f_equal.
    apply map_ext_in. intros c Hc. apply one_hot_complement.
    unfold over_alphabet in Hs. rewrite Forall_forall in Hs. now apply Hs.
  - exact (to_positive_strand_known "+" s Hs).
Qed.

Lemma X11_witness :
  to_positive_strand "-" (chars "AG") = inr [[0; 0; 0; 1]; [0; 1; 0; 0]] /\
  to_positive_strand "+" (chars "AG") = inr [[1; 0; 0; 0]; [0; 0; 1; 0]].
Proof.
  assert (Hs : over_alphabet (chars "AG")) by (repeat constructor).
  destruct (X11_minus_strand_mirrors_codes (chars "AG") Hs) as [Hm Hp].
  split; [rewrite Hm | rewrite Hp]; reflexivity.
Defined.

(** ** Reading one file *)

Lemma for_each_cons {A} (body : A -> M unit) a rest st :
  for_each body (a :: rest) st =
  match body a st with
  | (inr _, st1) => for_each body rest st1
  | (inl e, st1) => (inl e, st1)
  end.
Proof. reflexivity. Qed.

Lemma for_each_app {A} (body : A -> M unit) l1 l2 st :
  for_each body (l1 ++ l2) st =
  match for_each body l1 st with
  | (inr _, st1) => for_each body l2 st1
  | (inl e, st1) => (inl e, st1)
  end.
Proof.
  revert st. induction l1 as [|a l1 IH]; intros st; [reflexivity|].
  rewrite <- app_comm_cons, !for_each_cons.
  destruct (body a st) as [[e|u] st1]; [reflexivity | apply IH].
Qed.

Lemma for_each_ext {A} (f g : A -> M unit) l st :
  (forall a st1, In a l -> f a st1 = g a st1) ->
  for_each f l st = for_each g l st.
Proof.
  revert st. induction l as [|a l IH]; intros st H; [reflexivity|].
  rewrite !for_each_cons, (H a st (or_introl eq_refl)).
  destruct (g a st) as [[e|u] st1]; [reflexivity|].
  apply IH. intros b st2 Hb. apply H. now right.
Qed.

Lemma store_app_nil st : st = mkStore (X st ++ []) (y st ++ []).
Proof. destruct st. simpl. now rewrite !app_nil_r. Qed.

(** The rows a loop over records appends, for any body that appends one
    row when it succeeds and at most a label when it fails. *)
Section Rows.

Variable process : seq_record -> M unit.

Hypothesis success_row :
  forall r st st',
    process r st = (inr tt, st') ->
    exists v label,
      st' = mkStore (X st ++ [v]) (y st ++ [label]) /\
      feature_row v /\ labelled r label.

Hypothesis failure_row :
  forall r st e st',
    process r st = (inl e, st') ->
    st' = st \/
    exists label, labelled r label /\ st' = mkStore (X st) (y st ++ [label]).

Lemma for_each_success records :
  forall st st',
    for_each process records st = (inr tt, st') ->
    exists vs ls,
      st' = mkStore (X st ++ vs) (y st ++ ls) /\
      Forall feature_row vs /\
      List.length vs = List.length records /\
      Forall2 labelled records ls.
Proof.
  induction records as [|r rest IH]; intros st st' H.
  - injection H as <-. exists [], []. split; [apply store_app_nil|].
    repeat split; constructor.
  - rewrite for_each_cons in H.
    destruct (process r st) as [[e|[]] st1] eqn:E; [discriminate H|].
    destruct (success_row r st st1 E) as [v [l [-> [Hv Hl]]]].
    destruct (IH _ _ H) as [vs [ls [-> [Hvs [Hlen Hls]]]]].
    exists (v :: vs), (l :: ls). simpl.
    rewrite <- !app_assoc. simpl.
    split; [reflexivity|]. split; [now constructor|].
    split; [now rewrite Hlen | now constructor].
Qed.

Lemma for_each_failure records :
  forall st e st',
    for_each process records st = (inl e, st') ->
    exists done r rest vs ls,
      records = done ++ r :: rest /\
      Forall feature_row vs /\
      List.length vs = List.length done /\
      Forall2 labelled done ls /\
      (st' = mkStore (X st ++ vs) (y st ++ ls) \/
       exists label,
         labelled r label /\
         st' = mkStore (X st ++ vs) (y st ++ ls ++ [label])).
Proof.
  induction records as [|r rest IH]; intros st e st' H.
  - discriminate H.
  - rewrite for_each_cons in H.
    destruct (process r st) as [[e1|[]] st1] eqn:E.
    + injection H as <- <-.
      exists [], r, rest, [], []. simpl.
      split; [reflexivity|]. split; [constructor|].
      split; [reflexivity|]. split; [constructor|].
      destruct (failure_row r st e1 st1 E) as [-> | [l [Hl ->]]].
      * left. apply store_app_nil.
      * right. exists l. split; [exact Hl|]. now rewrite app_nil_r.
    + destruct (success_row r st st1 E) as [v [l [-> [Hv Hl]]]].
      destruct (IH _ _ _ H)
        as [done [r' [rest' [vs [ls [-> [Hvs [Hlen [Hls Hst]]]]]]]]].
      exists (r :: done), r', rest', (v :: vs), (l :: ls). simpl in *.
      rewrite <- !app_assoc in Hst. simpl in Hst.
      split; [reflexivity|]. split; [now constructor|].
      split; [now rewrite Hlen|]. split; [now constructor|].
      destruct Hst as [-> | [l' [Hl' ->]]].
      * now left.
      * right. exists l'. split; [exact Hl'|].
        now rewrite <- !app_assoc.
Qed.

End Rows.

(** X12: when [read_file] succeeds, in either variant, it has appended
    one vector and one label for each record of the file, after what the
    lists held before: every vector has 4000 entries 0 or 1, and the
    labels are those of the records in the order of the file. *)
Theorem X12_read_file_success :
  forall parse file st st',
    (StrandLoad.read_file parse file st = (inr tt, st') ->
     exists vs ls,
       st' = mkStore (X st ++ vs) (y st ++ ls) /\
       Forall feature_row vs /\
       List.length vs =
         List.length
           (parse (String.append "data/input/3.24_species_only/" file)) /\
       Forall2 labelled
         (parse (String.append "data/input/3.24_species_only/" file)) ls)
    /\
    (BasicLoad.read_file parse file st = (inr tt, st') ->
     exists vs ls,
       st' = mkStore (X st ++ vs) (y st ++ ls) /\
       Forall feature_row vs /\
       List.length vs =
         List.length
           (parse (String.append "../data/input/3.24_species_only/" file)) /\
       Forall2 labelled
         (parse (String.append "../data/input/3.24_species_only/" file)) ls).
Proof.
  intros parse file st st'. split; intros H.
  - exact (for_each_success Strand.process_seq_record
             strand_success_row _ st st' H).
  - exact (for_each_success Basic.process_seq_record
             basic_success_row _ st st' H).
Qed.

(** X13: when [read_file] fails, in either variant, the records before
    the failing one have each their vector and their label in the lists,
    and the failing record has added no vector and at most its own label:
    [y] is as long as [X], or longer by exactly one. *)
Theorem X13_read_file_failure :
  forall parse file st e st',
    (StrandLoad.read_file parse file st = (inl e, st') \/
     BasicLoad.read_file parse file st = (inl e, st')) ->
    exists vs ls,
      X st' = X st ++ vs /\ y st' = y st ++ ls /\
      Forall feature_row vs /\
      (List.length ls = List.length vs \/
       List.length ls = S (List.length vs)).
Proof.
  intros parse file st e st' [H|H].
  - destruct (for_each_failure Strand.process_seq_record
                strand_success_row strand_failure_row _ st e st' H)
      as [done [r [rest [vs [ls [_ [Hvs [Hlen [Hls Hst]]]]]]]]].
    apply Forall2_length in Hls.
    destruct Hst as [-> | [l [_ ->]]].
    + exists vs, ls. simpl. repeat split; auto. left. lia.
    + exists vs, (ls ++ [l]). simpl. repeat split; auto.
      right. rewrite length_app. simpl. lia.
  - destruct (for_each_failure Basic.process_seq_record
                basic_success_row basic_failure_row _ st e st' H)
      as [done [r [rest [vs [ls [_ [Hvs [Hlen [Hls Hst]]]]]]]]].
    apply Forall2_length in Hls.
    destruct Hst as [-> | [l [_ ->]]].
    + exists vs, ls. simpl. repeat split; auto. left. lia.
    + exists vs, (ls ++ [l]). simpl. repeat split; auto.
      right. rewrite length_app. simpl. lia.
Qed.

Lemma X12_witness :
  exists st' vs ls,
    StrandLoad.read_file sample_parse "good.fa" (mkStore [] [7]) =
      (inr tt, st') /\
    st' = mkStore vs (7 :: ls) /\
    List.length vs = 2%nat /\ List.length ls = 2%nat.
Proof.
  assert (Hrun :
    StrandLoad.read_file sample_parse "good.fa" (mkStore [] [7]) =
    (inr tt,
     snd (StrandLoad.read_file sample_parse "good.fa" (mkStore [] [7])))).
  { vm_compute. reflexivity. }
  destruct (proj1 (X12_read_file_success sample_parse "good.fa"
                     (mkStore [] [7]) _) Hrun)
    as [vs [ls [E [_ [Hlen Hls]]]]].
  exists (snd (StrandLoad.read_file sample_parse "good.fa" (mkStore [] [7]))),
    vs, ls.
  split; [exact Hrun|]. split; [exact E|].
  split; [exact Hlen|]. apply Forall2_length in Hls.
  symmetry. exact Hls.
Defined.

Lemma X13_witness :
  exists e st' vs ls,
    StrandLoad.read_file sample_parse "bad.fa" st0 = (inl e, st') /\
    X st' = vs /\ y st' = ls /\
    (List.length ls = List.length vs \/
     List.length ls = S (List.length vs)).
Proof.
  assert (Hrun :
    StrandLoad.read_file sample_parse "bad.fa" st0 =
    (inl (KeyError "x"),
     snd (StrandLoad.read_file sample_parse "bad.fa" st0))).
  { vm_compute. reflexivity. }
  destruct (X13_read_file_failure sample_parse "bad.fa" st0 _ _
              (or_introl Hrun))
    as [vs [ls [EX [Ey [_ Hlen]]]]].
  exists (KeyError "x"),
    (snd (StrandLoad.read_file sample_parse "bad.fa" st0)), vs, ls.
  split; [exact Hrun|]. split; [exact EX|]. split; [exact Ey | exact Hlen].
Defined.

(** ** The loop over the directory listing *)

Lemma firstn_add {A} a b (l : list A) :
  firstn (a + b) l = firstn a l ++ firstn b (skipn a l).
Proof.
  revert l. induction a as [|a IH]; intros l; [reflexivity|].
  destruct l as [|x l]; simpl.
  - now rewrite firstn_nil.
  - now rewrite IH.
Qed.

Lemma two_batches_nil read_file count c :
  two_batches read_file [] [] count c = (inr count, c).
Proof. destruct c. reflexivity. Qed.

Lemma strand_loop_batches parse listing :
  forall file_count c a b,
    a = Z.to_nat (StrandLoad.training_size - file_count) ->
    b = Z.to_nat (StrandLoad.training_size + StrandLoad.test_size
                  - Z.max file_count StrandLoad.training_size) ->
    StrandLoad.listing_loop parse listing file_count c =
    two_batches (StrandLoad.read_file parse)
      (firstn a listing) (firstn b (skipn a listing))
      (file_count + Z.of_nat (List.length listing)) c.
Proof.
  unfold StrandLoad.training_size, StrandLoad.test_size.
  induction listing as [|file rest IH]; intros fc c a b Ha Hb.
  - rewrite skipn_nil, !firstn_nil, two_batches_nil. simpl.
    now rewrite Z.add_0_r.
  - cbn [StrandLoad.listing_loop].
    unfold StrandLoad.training_size, StrandLoad.test_size.
    replace (fc + Z.of_nat (List.length (file :: rest)))
      with (fc + 1 + Z.of_nat (List.length rest))
      by (cbn [List.length]; lia).
    destruct (Z.ltb_spec fc 500) as [H1|H1].
    + destruct a as [|a]; [lia|].
      cbn [firstn skipn]. unfold two_batches. rewrite for_each_cons.
      destruct (StrandLoad.read_file parse file (train c))
        as [[e|u] st1]; [reflexivity|].
      rewrite (IH (fc + 1) (mkCollections st1 (test c)) a b) by lia.
      reflexivity.
    + assert (a = 0%nat) as -> by lia. cbn [firstn skipn].
      destruct (Z.ltb_spec fc (500 + 20)) as [H2|H2].
      * destruct b as [|b]; [lia|].
        cbn [firstn]. unfold two_batches. rewrite for_each_cons.
        cbn [for_each lift].
        destruct (StrandLoad.read_file parse file (test c))
          as [[e|u] st1]; [reflexivity|].
        rewrite (IH (fc + 1) (mkCollections (train c) st1) 0%nat b) by lia.
        reflexivity.
      * assert (b = 0%nat) as -> by lia.
        rewrite (IH (fc + 1) c 0%nat 0%nat) by lia.
        reflexivity.
Qed.

Lemma basic_loop_batches parse listing :
  forall file_count c a b,
    a = Z.to_nat (BasicLoad.training_size - file_count) ->
    b = Z.to_nat (BasicLoad.training_size + BasicLoad.test_size
                  - Z.max file_count BasicLoad.training_size) ->
    BasicLoad.listing_loop parse listing file_count c =
    let fa := filter (fun file => endswith file ".fa") listing in
    two_batches (BasicLoad.read_file parse)
      (firstn a fa) (firstn b (skipn a fa))
      (file_count + Z.of_nat (List.length fa)) c.
Proof.
  unfold BasicLoad.training_size, BasicLoad.test_size.
  induction listing as [|file rest IH]; intros fc c a b Ha Hb.
  - cbn [filter]. cbv zeta.
    rewrite skipn_nil, !firstn_nil, two_batches_nil. simpl.
    now rewrite Z.add_0_r.
  - cbn [BasicLoad.listing_loop filter]. cbv zeta.
    unfold BasicLoad.training_size, BasicLoad.test_size.
    destruct (endswith file ".fa"); [|now apply IH].
    set (fa := filter (fun file => endswith file ".fa") rest) in *.
    replace (fc + Z.of_nat (List.length (file :: fa)))
      with (fc + 1 + Z.of_nat (List.length fa))
      by (cbn [List.length]; lia).
    destruct (Z.ltb_spec fc 500) as [H1|H1].
    + destruct a as [|a]; [lia|].
      cbn [firstn skipn]. unfold two_batches. rewrite for_each_cons.
      destruct (BasicLoad.read_file parse file (train c))
        as [[e|u] st1]; [reflexivity|].
      rewrite (IH (fc + 1) (mkCollections st1 (test c)) a b) by lia.
      reflexivity.
    + assert (a = 0%nat) as -> by lia. cbn [firstn skipn].
      destruct (Z.ltb_spec fc (500 + 50)) as [H2|H2].
      * destruct b as [|b]; [lia|].
        cbn [firstn]. unfold two_batches. rewrite for_each_cons.
        cbn [for_each lift].
        destruct (BasicLoad.read_file parse file (test c))
          as [[e|u] st1]; [reflexivity|].
        rewrite (IH (fc + 1) (mkCollections (train c) st1) 0%nat b) by lia.
        reflexivity.
      * assert (b = 0%nat) as -> by lia.
        rewrite (IH (fc + 1) c 0%nat 0%nat) by lia.
        reflexivity.
Qed.

(** X14: the notebook with the strand step splits the files by their
    position in the directory listing, whatever their names: the first
    500 names are read into the training lists, the next 20 into the test
    lists, one after the other, and the names after the first 520 are
    counted but never read.  The first failing read ends the loop. *)
Theorem X14_strand_load_splits_by_position :
  forall parse listing,
    StrandLoad.load parse listing =
    two_batches (StrandLoad.read_file parse)
      (firstn 500 listing) (firstn 20 (skipn 500 listing))
      (Z.of_nat (List.length listing)) (mkCollections st0 st0).
Proof.
  intros parse listing. unfold StrandLoad.load.
  now rewrite (strand_loop_batches parse listing 0 _ 500%nat 20%nat).
Qed.

(** X15: the notebook without the strand step splits the names ending in
    ".fa" by their position among themselves: the first 500 of them are
    read into the training lists, the next 50 into the test lists, and
    [file_count] ends as the number of such names. *)
Theorem X15_basic_load_splits_fa_files :
  forall parse listing,
    BasicLoad.load parse listing =
    let fa := filter (fun file => endswith file ".fa") listing in
    two_batches (BasicLoad.read_file parse)
      (firstn 500 fa) (firstn 50 (skipn 500 fa))
      (Z.of_nat (List.length fa)) (mkCollections st0 st0).
Proof.
  intros parse listing. unfold BasicLoad.load.
  now rewrite (basic_loop_batches parse listing 0 _ 500%nat 50%nat).
Qed.

Lemma filter_twice {A} (f : A -> bool) l :
  filter f (filter f l) = filter f l.
Proof.
  induction l as [|a l IH]; [reflexivity|]. simpl.
  destruct (f a) eqn:E; [|exact IH]. simpl. now rewrite E, IH.
Qed.

(** X16: in the notebook without the strand step a name that does not
    end in ".fa" is neither read nor counted: the listing and the listing
    without such names load the same data, so such a file never moves the
    boundary between training and test files. *)
Theorem X16_basic_load_skips_other_files :
  forall parse listing,
    BasicLoad.load parse listing =
    BasicLoad.load parse (filter (fun file => endswith file ".fa") listing).
Proof.
  intros parse listing. unfold BasicLoad.load.
  rewrite (basic_loop_batches parse listing 0 _ 500%nat 50%nat) by reflexivity.
  rewrite (basic_loop_batches parse (filter _ listing) 0 _ 500%nat 50%nat)
    by reflexivity.
  cbv zeta. now rewrite filter_twice.
Qed.

Lemma two_batches_ext f g first second count c :
  (forall file st, In file (first ++ second) -> f file st = g file st) ->
  two_batches f first second count c = two_batches g first second count c.
Proof.
  intros H. unfold two_batches.
  rewrite (for_each_ext f g first), (for_each_ext f g second);
    [reflexivity| |]; intros a st1 Ha; apply H, in_or_app; auto.
Qed.

(** X17: what is loaded depends on the content of the files that are
    read only: in the notebook with the strand step the first 520 names
    of the listing, in the other one the first 550 names ending in ".fa".
    A file after them is never parsed, so nothing in it, not even a
    record that would fail, changes the result. *)
Theorem X17_later_files_never_read :
  forall parse parse' listing,
    ((forall file,
         In file (firstn 520 listing) ->
         parse (String.append "data/input/3.24_species_only/" file) =
         parse' (String.append "data/input/3.24_species_only/" file)) ->
     StrandLoad.load parse listing = StrandLoad.load parse' listing)
    /\
    ((forall file,
         In file
           (firstn 550 (filter (fun file => endswith file ".fa") listing)) ->
         parse (String.append "../data/input/3.24_species_only/" file) =
         parse' (String.append "../data/input/3.24_species_only/" file)) ->
     BasicLoad.load parse listing = BasicLoad.load parse' listing).
Proof.
  intros parse parse' listing. split; intros H.
  - unfold StrandLoad.load.
    rewrite !(strand_loop_batches _ listing 0 _ 500%nat 20%nat)
      by reflexivity.
    apply two_batches_ext. intros file st Hin.
    rewrite <- (firstn_add 500 20) in Hin.
    unfold StrandLoad.read_file. now rewrite (H file Hin).
  - unfold BasicLoad.load.
    rewrite !(basic_loop_batches _ listing 0 _ 500%nat 50%nat)
      by reflexivity.
    cbv zeta. apply two_batches_ext. intros file st Hin.
    rewrite <- (firstn_add 500 50) in Hin.
    unfold BasicLoad.read_file. now rewrite (H file Hin).
Qed.

Lemma filter_repeat {A} (f : A -> bool) a n :
  f a = true -> filter f (repeat a n) = repeat a n.
Proof.
  intros H. induction n as [|n IH]; simpl; [reflexivity|].
  now rewrite H, IH.
Qed.

Lemma firstn_sample_listing n :
  firstn n (sample_listing n) = repeat "a.fa"%string n.
Proof.
  unfold sample_listing.
  rewrite firstn_app, repeat_length, Nat.sub_diag.
  rewrite firstn_all2 by (rewrite repeat_length; lia).
  apply app_nil_r.
Qed.

Lemma X17_witness :
  In "late.fa"%string (sample_listing 520) /\
  sample_parse "data/input/3.24_species_only/late.fa" <>
    sample_parse_late "data/input/3.24_species_only/late.fa" /\
  StrandLoad.load sample_parse (sample_listing 520) =
    StrandLoad.load sample_parse_late (sample_listing 520) /\
  In "late.fa"%string (sample_listing 550) /\
  sample_parse "../data/input/3.24_species_only/late.fa" <>
    sample_parse_late "../data/input/3.24_species_only/late.fa" /\
  BasicLoad.load sample_parse (sample_listing 550) =
    BasicLoad.load sample_parse_late (sample_listing 550).
Proof.
  assert (Hlate : forall n, In "late.fa"%string (sample_listing n)).
  { intros n. unfold sample_listing. apply in_or_app. right. now left. }
  split; [apply Hlate|]. split; [discriminate|].
  split; [|split; [apply Hlate|split; [discriminate|]]].
  - apply (proj1 (X17_later_files_never_read sample_parse sample_parse_late
                    (sample_listing 520))).
    intros file Hin. rewrite firstn_sample_listing in Hin.
    apply repeat_spec in Hin. subst file. reflexivity.
  - apply (proj2 (X17_later_files_never_read sample_parse sample_parse_late
                    (sample_listing 550))).
    intros file Hin. unfold sample_listing in Hin.
    rewrite filter_app, (filter_repeat _ "a.fa"%string 550 eq_refl) in Hin.
    change (filter (fun file => endswith file ".fa") ["late.fa"%string])
      with ["late.fa"%string] in Hin.
    fold (sample_listing 550) in Hin.
    rewrite firstn_sample_listing in Hin.
    apply repeat_spec in Hin. subst file. reflexivity.
Defined.

(** X18: with at most 500 files to read (names ending in ".fa" in the
    notebook without the strand step, all names in the other) nothing
    ever reaches the test lists: they end empty, whether the loop ends
    normally or with an exception. *)
Theorem X18_few_files_leave_test_empty :
  forall parse listing,
    ((List.length listing <= 500)%nat ->
     test (snd (StrandLoad.load parse listing)) = st0)
    /\
    ((List.length (filter (fun file => endswith file ".fa") listing)
      <= 500)%nat ->
     test (snd (BasicLoad.load parse listing)) = st0).
Proof.
  intros parse listing. split; intros H.
  - unfold StrandLoad.load.
    rewrite (strand_loop_batches _ listing 0 _ 500%nat 20%nat)
      by reflexivity.
    rewrite (skipn_all2 listing H), firstn_nil. unfold two_batches.
    destruct (for_each _ _ _) as [[e|u] tr]; reflexivity.
  - unfold BasicLoad.load.
    rewrite (basic_loop_batches _ listing 0 _ 500%nat 50%nat)
      by reflexivity.
    cbv zeta. rewrite (skipn_all2 _ H), firstn_nil. unfold two_batches.
    destruct (for_each _ _ _) as [[e|u] tr]; reflexivity.
Qed.

Lemma X18_witness :
  test (snd (StrandLoad.load sample_parse ["a.fa"; "bad.fa"; "c.fa"]%string))
  = st0 /\
  test (snd (BasicLoad.load sample_parse ["a.fa"; "b.txt"; "c.fa"]%string))
  = st0.
Proof.
  split.
  - apply (proj1 (X18_few_files_leave_test_empty sample_parse
                    ["a.fa"; "bad.fa"; "c.fa"]%string)).
    simpl. lia.
  - apply (proj2 (X18_few_files_leave_test_empty sample_parse
                    ["a.fa"; "b.txt"; "c.fa"]%string)).
    simpl. lia.
Defined.

(** ** The shape of the loaded data *)

Lemma for_each_flat_map {A} (process : seq_record -> M unit)
  (records_of : A -> list seq_record) files :
  forall st,
    for_each (fun file => for_each process (records_of file)) files st =
    for_each process (flat_map records_of files) st.
Proof.
  induction files as [|file rest IH]; intros st; [reflexivity|].
  cbn [flat_map]. rewrite for_each_cons, for_each_app.
  destruct (for_each process (records_of file) st) as [[e|u] st1];
    [reflexivity | apply IH].
Qed.

Lemma holds_rows_of process
  (success_row :
     forall r st st',
       process r st = (inr tt, st') ->
       exists v label,
         st' = mkStore (X st ++ [v]) (y st ++ [label]) /\
         feature_row v /\ labelled r label)
  records st' :
  for_each process records st0 = (inr tt, st') ->
  holds_rows st' records.
Proof.
  intros H.
  destruct (for_each_success process success_row records st0 st' H)
    as [vs [ls [-> [Hvs [Hlen Hls]]]]].
  unfold holds_rows. simpl. auto.
Qed.

Lemma two_batches_success read_file first second count n c :
  two_batches read_file first second count (mkCollections st0 st0) =
    (inr n, c) ->
  n = count /\
  for_each read_file first st0 = (inr tt, train c) /\
  for_each read_file second st0 = (inr tt, test c).
Proof.
  unfold two_batches. simpl.
  destruct (for_each read_file first st0) as [[e|[]] tr];
    [discriminate|].
  destruct (for_each read_file second st0) as [[e|[]] te];
    [discriminate|].
  intros H. injection H as <- <-. auto.
Qed.

(** X19: when the loading loop ends normally the four lists have the
    shape the next cell prints: the training lists hold, for every record
    of the training files in the order read, one vector of 4000 entries
    0 or 1 and its label, and the test lists the same for the test files;
    [X] and [y] have one row per record. *)
Theorem X19_loaded_shapes :
  forall parse listing n c,
    (StrandLoad.load parse listing = (inr n, c) ->
     let records_of :=
       flat_map (fun file =>
         parse (String.append "data/input/3.24_species_only/" file)) in
     n = Z.of_nat (List.length listing) /\
     holds_rows (train c) (records_of (firstn 500 listing)) /\
     holds_rows (test c) (records_of (firstn 20 (skipn 500 listing))))
    /\
    (BasicLoad.load parse listing = (inr n, c) ->
     let records_of :=
       flat_map (fun file =>
         parse (String.append "../data/input/3.24_species_only/" file)) in
     let fa := filter (fun file => endswith file ".fa") listing in
     n = Z.of_nat (List.length fa) /\
     holds_rows (train c) (records_of (firstn 500 fa)) /\
     holds_rows (test c) (records_of (firstn 50 (skipn 500 fa)))).
Proof.
  intros parse listing n c. split; intros H.
  - unfold StrandLoad.load in H.
    rewrite (strand_loop_batches _ listing 0 _ 500%nat 20%nat) in H
      by reflexivity.
    apply two_batches_success in H. destruct H as [-> [Htr Hte]].
    unfold StrandLoad.read_file in Htr, Hte.
    rewrite for_each_flat_map in Htr, Hte.
    cbv zeta. split; [reflexivity|].
    split; apply (holds_rows_of _ strand_success_row); assumption.
  - unfold BasicLoad.load in H.
    rewrite (basic_loop_batches _ listing 0 _ 500%nat 50%nat) in H
      by reflexivity.
    cbv zeta in H.
    apply two_batches_success in H. destruct H as [-> [Htr Hte]].
    unfold BasicLoad.read_file in Htr, Hte.
    rewrite for_each_flat_map in Htr, Hte.
    cbv zeta. split; [reflexivity|].
    split; apply (holds_rows_of _ basic_success_row); assumption.
Qed.

Lemma X19_witness :
  let c := snd (BasicLoad.load sample_parse
                  ["a.fa"; "b.txt"; "c.fa"]%string) in
  List.length (X (train c)) = 4%nat /\
  Forall feature_row (X (train c)) /\
  List.length (y (train c)) = 4%nat.
Proof.
  intros c.
  assert (Hrun : BasicLoad.load sample_parse
                   ["a.fa"; "b.txt"; "c.fa"]%string = (inr 2, c)).
  { vm_compute. reflexivity. }
  destruct (proj2 (X19_loaded_shapes sample_parse
                     ["a.fa"; "b.txt"; "c.fa"]%string 2 c) Hrun)
    as [_ [[Hrows [Hlen Hlab]] _]].
  split; [exact Hlen|]. split; [exact Hrows|].
  apply Forall2_length in Hlab. symmetry. exact Hlab.
Defined.
